(** * Jarvis console: the conversation orchestrator of [assets/app.js]

    A shallow embedding of the script's state, its DOM and host effects,
    and its handlers, followed by the properties of the request lifecycle,
    the status line, the bounded history store and its restoration. *)

From Stdlib Require Import DecimalString QArith_base.
From stdpp Require Import base numbers list strings gmap.

Close Scope Q_scope.
Local Open Scope N_scope.

(** ** JavaScript strings

    A JS string is a sequence of UTF-16 code units. Literals of the script
    that are plain ASCII are written [js "..."]. *)

Definition jsstring : Type := list N.

Definition js (s : string) : jsstring :=
  (fun a : Ascii.ascii => Ascii.N_of_ascii a) <$> String.list_ascii_of_string s.

(** The placeholder text of the script, three U+2022 bullets. *)
Definition bullets : jsstring := [0x2022; 0x2022; 0x2022].

(** [WhiteSpace] and [LineTerminator] of ECMAScript, the code units that
    [String.prototype.trim] strips. *)
Definition is_js_space (c : N) : bool :=
  (c =? 0x9) || (c =? 0xA) || (c =? 0xB) || (c =? 0xC) || (c =? 0xD)
  || (c =? 0x20) || (c =? 0xA0) || (c =? 0x1680)
  || ((0x2000 <=? c) && (c <=? 0x200A))
  || (c =? 0x2028) || (c =? 0x2029) || (c =? 0x202F) || (c =? 0x205F)
  || (c =? 0x3000) || (c =? 0xFEFF).

Fixpoint trimStart (s : jsstring) : jsstring :=
  match s with
  | c :: rest => if is_js_space c then trimStart rest else s
  | [] => []
  end.

Definition trimEnd (s : jsstring) : jsstring := rev (trimStart (rev s)).

Definition trim (s : jsstring) : jsstring := trimEnd (trimStart s).

(** ASCII whitespace of the DOM standard: a class token containing one is
    refused by [DOMTokenList.add]. *)
Definition is_ascii_whitespace (c : N) : bool :=
  (c =? 0x9) || (c =? 0xA) || (c =? 0xC) || (c =? 0xD) || (c =? 0x20).

Definition str_eqb (a b : jsstring) : bool := bool_decide (a = b).

(** [/pattern/i.test(subject)] for a pattern of literal ASCII characters:
    without the [u] flag a code unit outside ASCII never folds onto an ASCII
    one, so the match is an ASCII case-insensitive substring search. *)
Definition ascii_upper (c : N) : N :=
  if (0x61 <=? c) && (c <=? 0x7A) then c - 0x20 else c.

Fixpoint prefix_ci (pat s : jsstring) : bool :=
  match pat, s with
  | [], _ => true
  | _ :: _, [] => false
  | p :: pat', c :: s' => (ascii_upper p =? ascii_upper c) && prefix_ci pat' s'
  end.

Fixpoint test_ci (pat s : jsstring) : bool :=
  prefix_ci pat s ||
  match s with
  | [] => false
  | _ :: s' => test_ci pat s'
  end.

(** Decimal rendering of a natural number, as a template literal gives it. *)
Definition decimal (n : nat) : jsstring :=
  js (NilZero.string_of_uint (Nat.to_uint n)).

(** ** JavaScript values that come out of [JSON.parse]

    A number carries its canonical rendering, the string [ToString] yields
    for it (so zero, of either sign, is [js "0"]). An object is the list of
    its own properties, each key once. [undefined], which JSON cannot
    produce, is the [None] of a property lookup. *)

#[warnings="-register-all"]
Inductive json : Type :=
| JNull
| JBool (b : bool)
| JNum (repr : jsstring)
| JStr (s : jsstring)
| JArr (items : list json)
| JObj (props : list (jsstring * json)).

Fixpoint assoc (k : jsstring) (props : list (jsstring * json)) : option json :=
  match props with
  | [] => None
  | (k', v) :: rest => if str_eqb k' k then Some v else assoc k rest
  end.

(** [v.k] for a value that is not [null]: only objects built by [JSON.parse]
    or by an object literal have the properties the script reads. *)
Definition prop (v : json) (k : string) : option json :=
  match v with
  | JObj props => assoc (js k) props
  | _ => None
  end.

(** The abstract operation [ToString], with [Array.prototype.join] for
    arrays, whose [null] elements render empty. It fails, with a
    [TypeError], on an object that has a property [toString] of its own:
    such a property is never callable in a value parsed from JSON, and
    [Object.prototype.valueOf] yields no primitive. *)
Fixpoint ToString (v : json) : option jsstring :=
  match v with
  | JNull => Some (js "null")
  | JBool true => Some (js "true")
  | JBool false => Some (js "false")
  | JNum repr => Some repr
  | JStr s => Some s
  | JArr items =>
      (fix join (l : list json) : option jsstring :=
         match l with
         | [] => Some []
         | x :: rest =>
             match (match x with JNull => Some [] | _ => ToString x end) with
             | None => None
             | Some piece =>
                 match rest with
                 | [] => Some piece
                 | _ :: _ =>
                     match join rest with
                     | None => None
                     | Some more => Some (piece ++ js "," ++ more)
                     end
                 end
             end
         end) items
  | JObj props =>
      match assoc (js "toString") props with
      | Some _ => None
      | None => Some (js "[object Object]")
      end
  end.

(** [ToString] of a value that may be [undefined]: template literals and
    [DOMString] arguments. *)
Definition to_string (v : option json) : option jsstring :=
  match v with
  | None => Some (js "undefined")
  | Some v => ToString v
  end.

(** The text the [textContent] setter stores: [null] and [undefined] give
    the empty text. *)
Definition text_content (v : option json) : option jsstring :=
  match v with
  | None | Some JNull => Some []
  | Some v => ToString v
  end.

Definition printable (v : json) : bool :=
  match ToString v with
  | Some _ => true
  | None => false
  end.

(** [ToBoolean]. *)
Definition truthy (v : option json) : bool :=
  match v with
  | None | Some JNull => false
  | Some (JBool b) => b
  | Some (JNum repr) => negb (str_eqb repr (js "0"))
  | Some (JStr s) => negb (str_eqb s [])
  | Some (JArr _) | Some (JObj _) => true
  end.

(** [v === "literal"]. *)
Definition is_str (v : option json) (lit : string) : bool :=
  match v with
  | Some (JStr s) => str_eqb s (js lit)
  | _ => false
  end.

(** [{ role, content }], the Message object literal of the script. *)
Definition Message (role : string) (content : json) : json :=
  JObj [(js "role", JStr (js role)); (js "content", content)].

(** ** The page, the host and the script's state *)

(** Values thrown by the script or by the host. [description] is what the
    error handler shows: [error.message || String(error)], where
    [Error.prototype.toString] of an error with no message is its name. *)
Record error : Type := Err { err_name : jsstring; err_message : jsstring }.

Definition description (e : error) : jsstring :=
  if str_eqb (err_message e) [] then err_name e else err_message e.

(** Exceptions raised by the host, whose message text is the host's own. *)
Inductive host_error : Type :=
| Null_property        (* reading a property of [null] *)
| Not_a_child          (* [removeChild] of a node that is not a child *)
| Empty_token          (* [classList.add("")] *)
| Whitespace_token     (* [classList.add] of a token with whitespace *)
| Recognition_started  (* [recognition.start()] on a running engine *)
| Quota_exceeded       (* [localStorage.setItem] refused *)
| Storage_denied       (* [localStorage.getItem] refused *)
| Malformed_json       (* [JSON.parse] of a text that is not JSON *)
| Not_primitive.       (* [ToString] of an object with no primitive value *)

Definition host_error_name (k : host_error) : jsstring :=
  match k with
  | Null_property => js "TypeError"
  | Not_a_child => js "NotFoundError"
  | Empty_token => js "SyntaxError"
  | Whitespace_token => js "InvalidCharacterError"
  | Recognition_started => js "InvalidStateError"
  | Quota_exceeded => js "QuotaExceededError"
  | Storage_denied => js "SecurityError"
  | Malformed_json => js "SyntaxError"
  | Not_primitive => js "TypeError"
  end.

Record voice : Type := Voice { voice_name : jsstring; voice_lang : jsstring }.

Record utterance : Type := Utterance {
  u_text : jsstring;
  u_rate : Q;
  u_pitch : Q;
  u_lang : jsstring;
  u_voice : option voice
}.

(** What the browser offers: [window.speechSynthesis] with its current
    voices, a speech recognition constructor, whether the store can be read
    and written, and the text of the host's own exceptions. *)
Record Host : Type := {
  synth : option (list voice);
  speech_recognition : bool;
  storage_readable : bool;
  storage_writable : bool;
  host_message : host_error -> jsstring
}.

(** The text held under a key of [localStorage], classified by what the
    script can observe of it: the empty string, a text [JSON.parse] rejects,
    or a text that parses to a value ([JSON.stringify] writes such a text). *)
Inductive stored_text : Type :=
| Text_empty
| Text_malformed
| Text_json (v : json).

(** A child of [#conversation]: a clone of the message template with the
    classes the script added, its avatar and its paragraph. *)
Record node : Type := Node {
  node_id : nat;
  node_classes : list jsstring;
  node_avatar : jsstring;
  node_text : jsstring
}.

Record button : Type := Button {
  btn_active : bool;
  btn_disabled : bool;
  btn_title : option jsstring
}.

(** Calls that leave the page. [Speak_call] records an invocation of the
    script's own [speak], whatever the host then does with it. *)
Inductive effect : Type :=
| Fetch (url : jsstring) (msg : jsstring) (context : list json)
| Speak_call (text : json)
| Synth_cancel
| Synth_speak (u : utterance)
| Console_error (e : error)
| Recognition_start
| Recognition_stop
| Scroll_to_end.

Record State : Type := {
  (* the [state] object of the script *)
  history : list json;
  isProcessing : bool;
  recognition : bool;
  voiceEnabled : bool;
  speechPending : bool;
  (* the page *)
  conversation : list node;
  next_node : nat;
  intel : list jsstring;
  status : jsstring;
  status_copy : jsstring;
  input_value : jsstring;
  voiceToggle : button;
  (* the host: the store, the recognition engine, the calls made *)
  localStorage : gmap jsstring stored_text;
  engine_started : bool;
  host : Host;
  trace : list effect
}.

(** Assignments to one field. *)
Definition set_history (h : list json) (s : State) : State :=
  {| history := h; isProcessing := isProcessing s;
     recognition := recognition s; voiceEnabled := voiceEnabled s;
     speechPending := speechPending s; conversation := conversation s;
     next_node := next_node s; intel := intel s; status := status s;
     status_copy := status_copy s; input_value := input_value s;
     voiceToggle := voiceToggle s; localStorage := localStorage s;
     engine_started := engine_started s; host := host s; trace := trace s |}.

Definition set_isProcessing (b : bool) (s : State) : State :=
  {| history := history s; isProcessing := b; recognition := recognition s;
     voiceEnabled := voiceEnabled s; speechPending := speechPending s;
     conversation := conversation s; next_node := next_node s;
     intel := intel s; status := status s; status_copy := status_copy s;
     input_value := input_value s; voiceToggle := voiceToggle s;
     localStorage := localStorage s; engine_started := engine_started s;
     host := host s; trace := trace s |}.

Definition set_recognition (b : bool) (s : State) : State :=
  {| history := history s; isProcessing := isProcessing s; recognition := b;
     voiceEnabled := voiceEnabled s; speechPending := speechPending s;
     conversation := conversation s; next_node := next_node s;
     intel := intel s; status := status s; status_copy := status_copy s;
     input_value := input_value s; voiceToggle := voiceToggle s;
     localStorage := localStorage s; engine_started := engine_started s;
     host := host s; trace := trace s |}.

Definition set_voiceEnabled (b : bool) (s : State) : State :=
  {| history := history s; isProcessing := isProcessing s;
     recognition := recognition s; voiceEnabled := b;
     speechPending := speechPending s; conversation := conversation s;
     next_node := next_node s; intel := intel s; status := status s;
     status_copy := status_copy s; input_value := input_value s;
     voiceToggle := voiceToggle s; localStorage := localStorage s;
     engine_started := engine_started s; host := host s; trace := trace s |}.

Definition set_conversation (c : list node) (s : State) : State :=
  {| history := history s; isProcessing := isProcessing s;
     recognition := recognition s; voiceEnabled := voiceEnabled s;
     speechPending := speechPending s; conversation := c;
     next_node := next_node s; intel := intel s; status := status s;
     status_copy := status_copy s; input_value := input_value s;
     voiceToggle := voiceToggle s; localStorage := localStorage s;
     engine_started := engine_started s; host := host s; trace := trace s |}.

Definition set_next_node (n : nat) (s : State) : State :=
  {| history := history s; isProcessing := isProcessing s;
     recognition := recognition s; voiceEnabled := voiceEnabled s;
     speechPending := speechPending s; conversation := conversation s;
     next_node := n; intel := intel s; status := status s;
     status_copy := status_copy s; input_value := input_value s;
     voiceToggle := voiceToggle s; localStorage := localStorage s;
     engine_started := engine_started s; host := host s; trace := trace s |}.

Definition set_intel (l : list jsstring) (s : State) : State :=
  {| history := history s; isProcessing := isProcessing s;
     recognition := recognition s; voiceEnabled := voiceEnabled s;
     speechPending := speechPending s; conversation := conversation s;
     next_node := next_node s; intel := l; status := status s;
     status_copy := status_copy s; input_value := input_value s;
     voiceToggle := voiceToggle s; localStorage := localStorage s;
     engine_started := engine_started s; host := host s; trace := trace s |}.

Definition set_status (st : jsstring) (s : State) : State :=
  {| history := history s; isProcessing := isProcessing s;
     recognition := recognition s; voiceEnabled := voiceEnabled s;
     speechPending := speechPending s; conversation := conversation s;
     next_node := next_node s; intel := intel s; status := st;
     status_copy := status_copy s; input_value := input_value s;
     voiceToggle := voiceToggle s; localStorage := localStorage s;
     engine_started := engine_started s; host := host s; trace := trace s |}.

Definition set_status_copy (c : jsstring) (s : State) : State :=
  {| history := history s; isProcessing := isProcessing s;
     recognition := recognition s; voiceEnabled := voiceEnabled s;
     speechPending := speechPending s; conversation := conversation s;
     next_node := next_node s; intel := intel s; status := status s;
     status_copy := c; input_value := input_value s;
     voiceToggle := voiceToggle s; localStorage := localStorage s;
     engine_started := engine_started s; host := host s; trace := trace s |}.

Definition set_input_value (v : jsstring) (s : State) : State :=
  {| history := history s; isProcessing := isProcessing s;
     recognition := recognition s; voiceEnabled := voiceEnabled s;
     speechPending := speechPending s; conversation := conversation s;
     next_node := next_node s; intel := intel s; status := status s;
     status_copy := status_copy s; input_value := v;
     voiceToggle := voiceToggle s; localStorage := localStorage s;
     engine_started := engine_started s; host := host s; trace := trace s |}.

Definition set_voiceToggle (b : button) (s : State) : State :=
  {| history := history s; isProcessing := isProcessing s;
     recognition := recognition s; voiceEnabled := voiceEnabled s;
     speechPending := speechPending s; conversation := conversation s;
     next_node := next_node s; intel := intel s; status := status s;
     status_copy := status_copy s; input_value := input_value s;
     voiceToggle := b; localStorage := localStorage s;
     engine_started := engine_started s; host := host s; trace := trace s |}.

Definition set_localStorage (m : gmap jsstring stored_text) (s : State) : State :=
  {| history := history s; isProcessing := isProcessing s;
     recognition := recognition s; voiceEnabled := voiceEnabled s;
     speechPending := speechPending s; conversation := conversation s;
     next_node := next_node s; intel := intel s; status := status s;
     status_copy := status_copy s; input_value := input_value s;
     voiceToggle := voiceToggle s; localStorage := m;
     engine_started := engine_started s; host := host s; trace := trace s |}.

Definition set_engine_started (b : bool) (s : State) : State :=
  {| history := history s; isProcessing := isProcessing s;
     recognition := recognition s; voiceEnabled := voiceEnabled s;
     speechPending := speechPending s; conversation := conversation s;
     next_node := next_node s; intel := intel s; status := status s;
     status_copy := status_copy s; input_value := input_value s;
     voiceToggle := voiceToggle s; localStorage := localStorage s;
     engine_started := b; host := host s; trace := trace s |}.

Definition set_trace (t : list effect) (s : State) : State :=
  {| history := history s; isProcessing := isProcessing s;
     recognition := recognition s; voiceEnabled := voiceEnabled s;
     speechPending := speechPending s; conversation := conversation s;
     next_node := next_node s; intel := intel s; status := status s;
     status_copy := status_copy s; input_value := input_value s;
     voiceToggle := voiceToggle s; localStorage := localStorage s;
     engine_started := engine_started s; host := host s; trace := t |}.

(** ** Computations of the script

    A statement runs on the state and completes normally with a value or
    abruptly with a thrown error; what it did before throwing stays done. *)

Inductive completion (A : Type) : Type :=
| Normal (a : A)
| Throw (e : error).
Arguments Normal {A} a.
Arguments Throw {A} e.

Definition JS (A : Type) : Type := State -> completion A * State.

Definition js_ret {A : Type} (a : A) : JS A := fun s => (Normal a, s).

Definition js_bind {A B : Type} (k : A -> JS B) (m : JS A) : JS B :=
  fun s =>
    match m s with
    | (Normal a, s') => k a s'
    | (Throw e, s') => (Throw e, s')
    end.

#[global] Instance JS_ret : MRet JS := @js_ret.
#[global] Instance JS_bind : MBind JS := @js_bind.

Definition throw {A : Type} (e : error) : JS A := fun s => (Throw e, s).

Definition host_throw {A : Type} (k : host_error) : JS A :=
  fun s => (Throw (Err (host_error_name k) (host_message (host s) k)), s).

Definition read {A : Type} (f : State -> A) : JS A := fun s => (Normal (f s), s).

Definition write (f : State -> State) : JS unit := fun s => (Normal tt, f s).

Definition skip : JS unit := mret tt.

(** [try { body } catch (error) { handler }] *)
Definition try_catch {A : Type} (body : JS A) (handler : error -> JS A) : JS A :=
  fun s =>
    match body s with
    | (Normal a, s') => (Normal a, s')
    | (Throw e, s') => handler e s'
    end.

(** [try { body } finally { final }]: [final] always runs, and the
    completion of [body] stands unless [final] itself throws. *)
Definition try_finally {A : Type} (body : JS A) (final : JS unit) : JS A :=
  fun s =>
    match body s with
    | (c, s') =>
        match final s' with
        | (Normal _, s'') => (c, s'')
        | (Throw e, s'') => (Throw e, s'')
        end
    end.

(** [items.forEach(f)] *)
Fixpoint forEach {A : Type} (items : list A) (f : A -> JS unit) : JS unit :=
  match items with
  | [] => skip
  | x :: rest => f x;; forEach rest f
  end.

(** [items.map(f)] *)
Fixpoint mapM {A B : Type} (f : A -> JS B) (items : list A) : JS (list B) :=
  match items with
  | [] => mret []
  | x :: rest => y ← f x; ys ← mapM f rest; mret (y :: ys)
  end.

Definition run {A : Type} (m : JS A) (s : State) : State := snd (m s).
Definition result {A : Type} (m : JS A) (s : State) : completion A := fst (m s).

(** [array.slice(-n)]: the last [n] elements, all of them when there are
    fewer. *)
Definition slice_last {A : Type} (n : nat) (l : list A) : list A :=
  drop (length l - n) l.

(** [v.k], which throws when [v] is [null]. *)
Definition get (v : json) (k : string) : JS (option json) :=
  match v with
  | JNull => host_throw Null_property
  | _ => mret (prop v k)
  end.

(** [a || b] on values. *)
Definition or_else (a : option json) (b : json) : json :=
  match a with
  | Some v => if truthy a then v else b
  | None => b
  end.

Definition emit (e : effect) : JS unit :=
  write (fun s => set_trace (trace s ++ [e]) s).

(** A conversion that may fail, as a statement that may throw. *)
Definition converted (text : option jsstring) : JS jsstring :=
  match text with
  | Some t => mret t
  | None => host_throw Not_primitive
  end.

(** The conversion of an argument to a [DOMString], also that of a
    template literal, and the conversion the [textContent] setter makes. *)
Definition DOMString (v : option json) : JS jsstring := converted (to_string v).

Definition textContent (v : option json) : JS jsstring := converted (text_content v).

(** ** The functions of the script *)

Definition scrollConversationToEnd : JS unit := emit Scroll_to_end.

Definition updateStatus (st copy : string) : JS unit :=
  write (set_status (js st));;
  write (set_status_copy (js copy)).

(** [classList.add(token)] on the class list [classes]. *)
Definition classList_add (classes : list jsstring) (token : jsstring)
  : JS (list jsstring) :=
  if str_eqb token [] then host_throw Empty_token
  else if existsb is_ascii_whitespace token then host_throw Whitespace_token
  else mret (if bool_decide (token ∈ classes) then classes else classes ++ [token]).

(** [conversationEl.appendChild(clone)] of a fresh clone of the template. *)
Definition appendChild (classes : list jsstring) (avatar text : jsstring) : JS nat :=
  id ← read next_node;
  c ← read conversation;
  write (set_conversation (c ++ [Node id classes avatar text]));;
  write (set_next_node (S id));;
  mret id.

(** [conversationEl.removeChild(child)] *)
Definition removeChild (child : nat) : JS unit :=
  c ← read conversation;
  if existsb (fun n => Nat.eqb (node_id n) child) c
  then write (set_conversation (List.filter (fun n => negb (Nat.eqb (node_id n) child)) c))
  else host_throw Not_a_child.

Definition renderMessage (item : json) : JS nat :=
  role ← get item "role";
  content ← get item "content";
  speaking ← get item "speaking";
  let speaking := match speaking with None => Some (JBool false) | Some _ => speaking end in
  token ← (if is_str role "assistant" then mret (js "assistant") else DOMString role);
  classes ← classList_add [] token;
  processing ← read isProcessing;
  classes ← (if processing && is_str role "assistant" && truthy speaking
             then classList_add classes (js "thinking")
             else mret classes);
  let avatar :=
    if is_str role "user" then js "You"
    else if is_str role "assistant" then js "J" else js "SYS" in
  let avatar := if is_str role "assistant" then js "J" else avatar in
  text ← textContent content;
  clone ← appendChild classes avatar text;
  scrollConversationToEnd;;
  mret clone.

Definition preferredVoices : list jsstring :=
  [js "jarvis"; js "brian"; js "matthew"; js "guy"; js "en-us"].

Definition choose_voice (voices : list voice) : option voice :=
  match List.find (fun v => existsb (fun pattern => test_ci pattern (voice_name v))
                              preferredVoices) voices with
  | Some v => Some v
  | None =>
      match List.find (fun v => test_ci (js "en-GB") (voice_lang v)) voices with
      | Some v => Some v
      | None => head voices
      end
  end.

Definition speak (text : json) : JS unit :=
  emit (Speak_call text);;
  h ← read host;
  match synth h with
  | None => skip
  | Some voices =>
      emit Synth_cancel;;
      uttered ← DOMString (Some text);
      emit (Synth_speak
              {| u_text := uttered; u_rate := (102 # 100)%Q;
                 u_pitch := (105 # 100)%Q; u_lang := js "en-US";
                 u_voice := choose_voice voices |})
  end.

Definition pushIntel (items : list json) : JS unit :=
  match items with
  | [] => skip
  | _ :: _ =>
      write (set_intel []);;
      forEach items (fun item =>
        text ← textContent (Some item);
        shown ← read intel;
        write (set_intel (shown ++ [text])))
  end.

Definition storage_key : jsstring := js "jarvis_history".

(** [JSON.stringify] writes a number that is not finite as [null], inside
    arrays and objects as well; every other value parsed from JSON, or built
    of such values by an object literal, is read back from its text as it
    was. [jsonify v] is the value read back from the text of [v]. *)
Definition non_finite (repr : jsstring) : bool :=
  str_eqb repr (js "Infinity") || str_eqb repr (js "-Infinity") || str_eqb repr (js "NaN").

Fixpoint jsonify (v : json) : json :=
  match v with
  | JNum repr => if non_finite repr then JNull else JNum repr
  | JArr items => JArr (List.map jsonify items)
  | JObj props => JObj (List.map (fun p => match p with (k, x) => (k, jsonify x) end) props)
  | _ => v
  end.

(** A value with no number in it that is not finite. *)
Fixpoint finite (v : json) : bool :=
  match v with
  | JNum repr => negb (non_finite repr)
  | JArr items => forallb finite items
  | JObj props => forallb (fun p => match p with (_, x) => finite x end) props
  | _ => true
  end.

Definition JSON_stringify (l : list json) : stored_text :=
  Text_json (JArr (jsonify <$> l)).

Definition JSON_parse (text : stored_text) : JS json :=
  match text with
  | Text_json v => mret v
  | Text_empty | Text_malformed => host_throw Malformed_json
  end.

Definition localStorage_setItem (k : jsstring) (v : stored_text) : JS unit :=
  h ← read host;
  if storage_writable h
  then write (fun s => set_localStorage (<[k := v]> (localStorage s)) s)
  else host_throw Quota_exceeded.

Definition localStorage_getItem (k : jsstring) : JS (option stored_text) :=
  h ← read host;
  if storage_readable h
  then read (fun s => localStorage s !! k)
  else host_throw Storage_denied.

Definition persistHistory : JS unit :=
  try_catch
    (h ← read history;
     let payload := JSON_stringify (slice_last 20 h) in
     localStorage_setItem storage_key payload)
    (fun _ => skip).

Definition restoreHistory : JS unit :=
  try_catch
    (raw ← localStorage_getItem storage_key;
     match raw with
     | None | Some Text_empty => skip
     | Some text =>
         parsed ← JSON_parse text;
         write (set_history (match parsed with JArr items => items | _ => [] end));;
         h ← read history;
         forEach h (fun item => renderMessage item;; skip);;
         h ← read history;
         match h with
         | [] => skip
         | _ :: _ =>
             recent ← mapM (fun entry =>
                              role ← get entry "role";
                              content ← get entry "content";
                              text ← DOMString content;
                              mret (JStr ((if is_str role "user" then js "You" else js "Jarvis")
                                          ++ js ": " ++ text)))
                           (slice_last 3 h);
             pushIntel
               ([JStr (js "Historical context restored.");
                 JStr (js "Loaded " ++ decimal (length h) ++ js " transmissions.");
                 JStr (js "Jarvis is ready to continue the mission.")] ++ recent)
         end
     end)
    (fun _ => write (set_history [])).

(** [voiceToggle.classList.add("active")] and [remove("active")]. *)
Definition voiceToggle_active (b : bool) : JS unit :=
  write (fun s => set_voiceToggle
                    {| btn_active := b; btn_disabled := btn_disabled (voiceToggle s);
                       btn_title := btn_title (voiceToggle s) |} s).

Definition voiceToggle_disable (title : string) : JS unit :=
  write (fun s => set_voiceToggle
                    {| btn_active := btn_active (voiceToggle s); btn_disabled := true;
                       btn_title := Some (js title) |} s).

(** The engine: [start()] throws on an engine already started; [stop()]
    only asks it to end, which it reports later by its [end] event. *)
Definition recognition_start : JS unit :=
  started ← read engine_started;
  if started : bool then host_throw Recognition_started
  else write (set_engine_started true);; emit Recognition_start.

Definition recognition_stop : JS unit := emit Recognition_stop.

Definition toggleVoiceInput : JS unit :=
  h ← read host;
  if negb (speech_recognition h)
  then voiceToggle_disable "Voice recognition not supported in this browser."
  else
    created ← read recognition;
    (if created : bool then skip else write (set_recognition true));;
    enabled ← read voiceEnabled;
    if enabled : bool
    then
      recognition_stop;;
      write (set_voiceEnabled false);;
      voiceToggle_active false;;
      updateStatus "idle" "Voice Link Offline"
    else
      recognition_start;;
      write (set_voiceEnabled true).

(** [sendCommand], up to its first [await]: what a call does before it
    returns its promise. The value is the [placeholder] the suspended call
    holds, or [None] when the call returned at a guard. *)
Definition sendCommand (message : jsstring) : JS (option nat) :=
  processing ← read isProcessing;
  if str_eqb message [] || processing then mret None
  else
    let trimmed := trim message in
    if str_eqb trimmed [] then mret None
    else
      write (set_isProcessing true);;
      updateStatus "thinking" "Processing";;
      let userPayload := Message "user" (JStr trimmed) in
      h ← read history;
      write (set_history (h ++ [userPayload]));;
      renderMessage userPayload;;
      persistHistory;;
      write (set_input_value []);;
      placeholder ← renderMessage
        (JObj [(js "role", JStr (js "assistant")); (js "content", JStr bullets);
               (js "speaking", JBool true)]);
      h ← read history;
      emit (Fetch (js "/api/assistant") trimmed (slice_last 12 h));;
      mret (Some placeholder).

(** How the request ends: [fetch] rejects, or resolves with a response of
    some status whose [json()] resolves with a value or rejects. *)
Inductive body : Type :=
| Body_json (data : json)
| Body_rejected (e : error).

Inductive outcome : Type :=
| Fetch_rejected (e : error)
| Fetch_resolved (code : nat) (b : body).

(** [response.ok] *)
Definition ok (code : nat) : bool := Nat.leb 200 code && Nat.leb code 299.

(** [await fetch(...)], the [response.ok] check and [await response.json()]:
    nothing of the script's state is touched between the two awaits. *)
Definition await_data (o : outcome) : JS json :=
  match o with
  | Fetch_rejected e => throw e
  | Fetch_resolved code b =>
      if negb (ok code)
      then throw (Err (js "Error") (js "Request failed with status " ++ decimal code))
      else match b with
           | Body_json data => mret data
           | Body_rejected e => throw e
           end
  end.

Definition fallback_reply : jsstring := js "I'm here.".

Definition apology : jsstring :=
  js "Systems encountered turbulence processing that request. Review logs and try again.".

(** [sendCommand] from the moment the request settles: the rest of its
    [try] block, its [catch] block and its [finally] block. *)
Definition try_block (placeholder : nat) (o : outcome) : JS unit :=
  data ← await_data o;
  reply ← get data "reply";
  let content := or_else reply (JStr fallback_reply) in
  let assistantPayload := Message "assistant" content in
  h ← read history;
  write (set_history (h ++ [assistantPayload]));;
  removeChild placeholder;;
  renderMessage assistantPayload;;
  persistHistory;;
  actions ← get data "actions";
  match actions with
  | Some (JArr (a :: rest)) => pushIntel (a :: rest)
  | _ => skip
  end;;
  intent ← get data "intent";
  (if truthy intent
   then label ← DOMString intent; write (set_status_copy (js "Intent: " ++ label))
   else skip);;
  flag ← get data "speak";
  match flag with
  | Some (JBool false) => skip
  | _ => speak content
  end.

Definition catch_block (placeholder : nat) (error : error) : JS unit :=
  removeChild placeholder;;
  renderMessage (Message "assistant" (JStr apology));;
  emit (Console_error error);;
  pushIntel [JStr (js "Error encountered."); JStr (description error)].

Definition finally_block : JS unit :=
  write (set_isProcessing false);;
  enabled ← read voiceEnabled;
  if enabled : bool
  then updateStatus "thinking" "Listening"
  else updateStatus "idle" "Systems Idle".

Definition sendCommand_resume (placeholder : nat) (o : outcome) : JS unit :=
  try_finally
    (try_catch (try_block placeholder o) (catch_block placeholder))
    finally_block.

(** ** The listeners the script installs *)

(** The form's [submit] listener. *)
Definition on_submit : JS (option nat) :=
  value ← read input_value;
  sendCommand value.

(** A [data-command] button: fill the input and dispatch [submit], whose
    listener runs before [dispatchEvent] returns. *)
Definition on_command (command : jsstring) : JS (option nat) :=
  write (set_input_value command);;
  on_submit.

Definition onresult (heard : jsstring) : JS (option nat) :=
  let transcript := trim heard in
  if str_eqb transcript [] then mret None
  else write (set_input_value transcript);; on_submit.

Definition onstart : JS unit :=
  voiceToggle_active true;;
  updateStatus "thinking" "Listening".

Definition onend : JS unit :=
  voiceToggle_active false;;
  processing ← read isProcessing;
  if processing : bool then skip else updateStatus "idle" "Systems Idle".

Definition onerror : JS unit :=
  voiceToggle_active false;;
  processing ← read isProcessing;
  if processing : bool then skip else updateStatus "idle" "Systems Idle".

(** The window's [load] listener. *)
Definition on_load : JS unit :=
  restoreHistory;;
  h ← read host;
  match synth h with
  | None => pushIntel [JStr (js "Speech synthesis unavailable on this device.")]
  | Some _ => skip
  end;;
  if negb (speech_recognition h)
  then voiceToggle_disable "Voice recognition requires Chrome or Edge desktop."
  else skip.

(** ** The session as a machine

    The page, once the [load] listener has run, together with the one call
    of [sendCommand] that may be suspended at its [await]. Events of the
    user, of the recognition engine and of the network arrive in any order,
    each handled to completion. *)

Record Session : Type := { page : State; inflight : option nat }.

Inductive event : Type :=
| Type_text (text : jsstring)
| Submit
| Click_command (command : jsstring)
| Click_voice
| Engine_start
| Engine_result (heard : jsstring)
| Engine_error
| Engine_end
| Settle (o : outcome).

Definition submitting (m : JS (option nat)) (x : Session) : Session :=
  match m (page x) with
  | (Normal (Some placeholder), s) => {| page := s; inflight := Some placeholder |}
  | (_, s) => {| page := s; inflight := inflight x |}
  end.

Definition handling (m : JS unit) (x : Session) : Session :=
  {| page := run m (page x); inflight := inflight x |}.

Definition step (x : Session) (ev : event) : Session :=
  match ev with
  | Type_text text => handling (write (set_input_value text)) x
  | Submit => submitting on_submit x
  | Click_command command => submitting (on_command command) x
  | Click_voice => handling toggleVoiceInput x
  | Engine_start => handling onstart x
  | Engine_result heard => submitting (onresult heard) x
  | Engine_error => handling onerror x
  | Engine_end => handling (write (set_engine_started false);; onend) x
  | Settle o =>
      match inflight x with
      | Some placeholder =>
          {| page := run (sendCommand_resume placeholder o) (page x); inflight := None |}
      | None => x
      end
  end.

Definition steps (x : Session) (evs : list event) : Session := fold_left step evs x.

(** Events other than the settling of the request. *)
Definition interleaved (ev : event) : bool :=
  match ev with
  | Settle _ => false
  | _ => true
  end.

(** The page as the script finds it: nothing said yet, the status line as
    the document has it. *)
Definition initial_page (h : Host) (store : gmap jsstring stored_text)
    (st copy : jsstring) : State :=
  {| history := []; isProcessing := false; recognition := false;
     voiceEnabled := false; speechPending := false; conversation := [];
     next_node := 0; intel := []; status := st; status_copy := copy;
     input_value := []; voiceToggle := Button false false None;
     localStorage := store; engine_started := false; host := h; trace := [] |}.

Definition chrome : Host :=
  {| synth := Some [Voice (js "Google US English") (js "en-US");
                    Voice (js "Brian") (js "en-GB")];
     speech_recognition := true; storage_readable := true;
     storage_writable := true; host_message := fun _ => js "host error" |}.

Definition at_rest : Session :=
  {| page := initial_page chrome ∅ (js "idle") (js "Systems Idle"); inflight := None |}.

(** The requests sent and the texts handed to [speak], read off a trace. *)
Definition requests (t : list effect) : list effect :=
  List.filter (fun e => match e with Fetch _ _ _ => true | _ => false end) t.

Definition spoken (t : list effect) : list json :=
  omap (fun e => match e with Speak_call text => Some text | _ => None end) t.

(** What the spec calls a Message-shaped record: a [role] that is ["user"]
    or ["assistant"] and a [content] that is a string; and a stored text
    that is a well-formed sequence of such records. Written from the spec's
    words, to compare with what [restoreHistory] accepts. *)
Definition message_shaped (v : json) : bool :=
  match v with
  | JObj _ =>
      (is_str (prop v "role") "user" || is_str (prop v "role") "assistant")
      && match prop v "content" with Some (JStr _) => true | _ => false end
  | _ => false
  end.

Definition well_formed_store (text : stored_text) : bool :=
  match text with
  | Text_json (JArr items) => forallb message_shaped items
  | _ => false
  end.

(** An entry [renderMessage] renders without throwing: it is not [null],
    its [role] converts to a class token that is neither empty nor has
    whitespace, and its [content] converts to a text. *)
Definition class_token (item : json) : option jsstring :=
  let role := prop item "role" in
  if is_str role "assistant" then Some (js "assistant") else to_string role.

Definition valid_token (token : jsstring) : bool :=
  negb (str_eqb token []) && negb (existsb is_ascii_whitespace token).

Definition renderable (item : json) : bool :=
  match item with
  | JNull => false
  | _ =>
      match class_token item, text_content (prop item "content") with
      | Some token, Some _ => valid_token token
      | _, _ => false
      end
  end.

(** Node handles are fresh: every child of the conversation was numbered
    before the next clone. *)
Definition fresh_handles (s : State) : Prop :=
  Forall (fun n => (node_id n < next_node s)%nat) (conversation s).

(** A call of [sendCommand] by whichever listener, and a whole submission:
    the call, the events that arrive while the request is out, and the
    settling of the request. *)
Definition call (message : jsstring) (x : Session) : Session :=
  submitting (sendCommand message) x.

Definition submission (x : Session) (message : jsstring) (evs : list event)
    (o : outcome) : Session :=
  step (steps (call message x) evs) (Settle o).


Definition said (s : State) : list json := spoken (trace s).
Definition sent (s : State) : list effect := requests (trace s).

(** What stays as it is while a request is out, whatever the user and the
    recognition engine do: everything but the status line, the voice button
    and flags, the input box and the calls made to the engine. *)
Definition settled_part (s : State) :=
  (history s, isProcessing s, conversation s, next_node s, intel s,
   localStorage s, host s, said s, sent s).

(** The transcript entries of a submission. *)
Definition user_node (id : nat) (text : jsstring) : node :=
  Node id [js "user"] (js "You") text.

Definition placeholder_node (id : nat) : node :=
  Node id [js "assistant"; js "thinking"] (js "J") bullets.

Definition assistant_node (id : nat) (text : jsstring) : node :=
  Node id [js "assistant"] (js "J") text.

(** [data.reply || "I'm here."], the content of the assistant's Message. *)
Definition reply_content (data : json) : json :=
  or_else (prop data "reply") (JStr fallback_reply).


(** The content recorded when the request settles well: the status is in
    200..299 and the body is JSON other than [null]. *)
Definition answered (o : outcome) : option json :=
  match o with
  | Fetch_resolved code (Body_json data) =>
      if ok code
      then match data with JNull => None | _ => Some (reply_content data) end
      else None
  | _ => None
  end.

(** The error the [try] block throws before it records anything: the
    rejection of [fetch] or of [json()], the script's own error for a status
    outside 200..299, or the host's [TypeError] for a body that is [null]. *)
Definition failure (h : Host) (o : outcome) : option error :=
  match o with
  | Fetch_rejected e => Some e
  | Fetch_resolved code b =>
      if ok code
      then match b with
           | Body_rejected e => Some e
           | Body_json JNull =>
               Some (Err (host_error_name Null_property) (host_message h Null_property))
           | Body_json _ => None
           end
      else Some (Err (js "Error") (js "Request failed with status " ++ decimal code))
  end.


(** Sample inputs. *)
Definition nominal : json :=
  JObj [(js "reply", JStr (js "All systems nominal.")); (js "intent", JStr (js "status"))].



(** A session with a request out, and one with voice input switched on. *)
Definition in_flight : Session :=
  steps at_rest [Type_text (js "status report"); Submit].

Definition voice_on : Session := step at_rest Click_voice.

(** A store whose text is an array with an entry that has a [role] and no
    [content]. *)
Definition unshaped_entry : json := JObj [(js "role", JStr (js "user"))].

Definition unshaped_store : gmap jsstring stored_text :=
  {[ storage_key := Text_json (JArr [unshaped_entry]) ]}.

(** A submission on a fresh page that the service answers with [data]. *)
Definition answer_with (data : json) : Session :=
  submission at_rest (js "status report") [] (Fetch_resolved 200 (Body_json data)).

(** The two tests [speak] makes of a voice. *)
Definition preferred (v : voice) : bool :=
  existsb (fun pattern => test_ci pattern (voice_name v)) preferredVoices.

Definition british (v : voice) : bool := test_ci (js "en-GB") (voice_lang v).

(** A string with no code unit that [trim] would strip at either end. *)
Definition trimmed_edges (s : jsstring) : Prop :=
  match head s with Some c => is_js_space c = false | None => True end
  /\ match last s with Some c => is_js_space c = false | None => True end.

(** The session once the [load] listener has run on the page. *)
Definition loaded (h : Host) (store : gmap jsstring stored_text)
    (st copy : jsstring) : Session :=
  {| page := run on_load (initial_page h store st copy); inflight := None |}.

(** The in-flight flag is up exactly while a call is suspended. *)
Definition coherent (x : Session) : Prop :=
  isProcessing (page x) = match inflight x with Some _ => true | None => false end.

(** The requests that settle among the events, and the room for one more
    request: one when no call is suspended. *)
Definition settles (evs : list event) : nat :=
  length (List.filter (fun ev => negb (interleaved ev)) evs).

Definition room (s : State) : nat := if isProcessing s then 0%nat else 1%nat.

(** A browser with speech synthesis and without speech recognition. *)
Definition firefox : Host :=
  {| synth := Some [Voice (js "Microsoft David") (js "en-US")];
     speech_recognition := false; storage_readable := true;
     storage_writable := true; host_message := fun _ => js "host error" |}.

(** The calls made to the recognition engine, read off a trace. *)
Definition engine_calls (t : list effect) : list effect :=
  List.filter (fun e => match e with
                        | Recognition_start | Recognition_stop => true
                        | _ => false
                        end) t.

(** What no listener but the voice button's changes. *)
Definition voice_link (s : State) :=
  (voiceEnabled s, recognition s, btn_disabled (voiceToggle s), btn_title (voiceToggle s),
   engine_calls (trace s)).

Definition is_click_voice (ev : event) : bool :=
  match ev with
  | Click_voice => true
  | _ => false
  end.

(** The status line, and the four forms it has between events. *)
Definition status_line (s : State) : jsstring * jsstring := (status s, status_copy s).

Definition status_lines : list (jsstring * jsstring) :=
  [(js "idle", js "Systems Idle"); (js "idle", js "Voice Link Offline");
   (js "thinking", js "Listening"); (js "thinking", js "Processing")].

(** * Properties *)

(** ** Reasoning about computations *)

Ltac js_unfold :=
  unfold mbind, mret, JS_bind, JS_ret, js_bind, js_ret, skip, read, write,
    emit, throw, host_throw, try_catch, try_finally, run, result.

(** [m] leaves the observation [f] of the state as it was, however it
    completes. *)
Definition preserves {F A : Type} (f : State -> F) (m : JS A) : Prop :=
  forall s, f (run m s) = f s.

(** [m] keeps the property [P] of the state, however it completes. *)
Definition maintains {A : Type} (P : State -> Prop) (m : JS A) : Prop :=
  forall s, P s -> P (run m s).

Section Preservation.
Context {F : Type} (f : State -> F).

Lemma preserves_ret {A} (a : A) : preserves f (mret a).
Proof. intros s. reflexivity. Qed.

Lemma preserves_skip : preserves f skip.
Proof. intros s. reflexivity. Qed.

Lemma preserves_read {A} (g : State -> A) : preserves f (read g).
Proof. intros s. reflexivity. Qed.

Lemma preserves_throw {A} e : preserves f (@throw A e).
Proof. intros s. reflexivity. Qed.

Lemma preserves_host_throw {A} k : preserves f (@host_throw A k).
Proof. intros s. reflexivity. Qed.

Lemma preserves_write g : (forall s, f (g s) = f s) -> preserves f (write g).
Proof. intros H s. apply H. Qed.

Lemma preserves_bind {A B} (m : JS A) (k : A -> JS B) :
  preserves f m -> (forall a, preserves f (k a)) -> preserves f (m ≫= k).
Proof.
  intros Hm Hk s. specialize (Hm s). revert Hm. js_unfold.
  destruct (m s) as [[a | e] s1]; simpl; intros Hm.
  - rewrite <- Hm. apply Hk.
  - exact Hm.
Qed.

Lemma preserves_try_catch {A} (body : JS A) handler :
  preserves f body -> (forall e, preserves f (handler e)) ->
  preserves f (try_catch body handler).
Proof.
  intros Hm Hk s. specialize (Hm s). revert Hm. js_unfold.
  destruct (body s) as [[a | e] s1]; simpl; intros Hm.
  - exact Hm.
  - rewrite <- Hm. apply Hk.
Qed.

Lemma preserves_try_finally {A} (body : JS A) final :
  preserves f body -> preserves f final -> preserves f (try_finally body final).
Proof.
  intros Hm Hk s. specialize (Hm s). specialize (Hk (snd (body s))).
  revert Hm Hk. js_unfold.
  destruct (body s) as [c s1]; simpl.
  destruct (final s1) as [[a | e] s2]; simpl; congruence.
Qed.

Lemma preserves_forEach {A} (items : list A) g :
  (forall x, preserves f (g x)) -> preserves f (forEach items g).
Proof.
  intros Hg. induction items as [| x rest IH]; simpl.
  - apply preserves_skip.
  - apply preserves_bind; [apply Hg | intros _; exact IH].
Qed.

Lemma preserves_mapM {A B} (g : A -> JS B) (items : list A) :
  (forall x, preserves f (g x)) -> preserves f (mapM g items).
Proof.
  intros Hg. induction items as [| x rest IH]; simpl.
  - apply preserves_ret.
  - apply preserves_bind; [apply Hg | intros y].
    apply preserves_bind; [exact IH | intros ys; apply preserves_ret].
Qed.
End Preservation.

(** Walks down a computation to its assignments, each of which must leave
    the observation alone by computation. *)
Ltac frame_step :=
  lazymatch goal with
  | |- preserves _ (mbind _ _) => apply preserves_bind; [| intros ?]
  | |- preserves _ (mret _) => apply preserves_ret
  | |- preserves _ skip => apply preserves_skip
  | |- preserves _ (read _) => apply preserves_read
  | |- preserves _ (throw _) => apply preserves_throw
  | |- preserves _ (host_throw _) => apply preserves_host_throw
  | |- preserves _ (try_catch _ _) => apply preserves_try_catch; [| intros ?]
  | |- preserves _ (try_finally _ _) => apply preserves_try_finally
  | |- preserves _ (forEach _ _) => apply preserves_forEach; intros ?
  | |- preserves _ (mapM _ _) => apply preserves_mapM; intros ?
  | |- preserves _ (write _) => apply preserves_write; intros ?; reflexivity
  | |- preserves _ (if ?b then _ else _) => destruct b
  | |- preserves _ (match ?x with _ => _ end) => destruct x
  | |- preserves _ (let _ := _ in _) => cbv zeta
  end.

Lemma spoken_snoc t e :
  spoken (t ++ [e]) = spoken t ++ match e with Speak_call text => [text] | _ => [] end.
Proof.
  unfold spoken. rewrite omap_app. simpl. destruct e; reflexivity.
Qed.

Lemma requests_snoc t e :
  requests (t ++ [e]) = requests t ++ match e with Fetch _ _ _ => [e] | _ => [] end.
Proof.
  unfold requests. rewrite List.filter_app. simpl. destruct e; reflexivity.
Qed.

Ltac frame_leaf :=
  first
    [ reflexivity
    | unfold said, sent; simpl;
      rewrite ?spoken_snoc, ?requests_snoc, ?app_nil_r; reflexivity ].

Ltac frame_op :=
  lazymatch goal with
  | |- preserves _ (write _) => apply preserves_write; intros ?; frame_leaf
  | |- preserves _ _ =>
      first
        [ frame_step
        | progress unfold emit, updateStatus, scrollConversationToEnd,
            classList_add, appendChild, removeChild, renderMessage, speak,
            pushIntel, JSON_parse, localStorage_setItem, localStorage_getItem,
            persistHistory, voiceToggle_active, voiceToggle_disable,
            recognition_start, recognition_stop, toggleVoiceInput, get,
            await_data, onstart, onend, onerror, try_block, catch_block,
            finally_block, DOMString, textContent, converted ]
  end.

Ltac framing := repeat frame_op.

Ltac js_step := js_unfold; cbv beta iota zeta.

(** Names the components of a state, so that what the script reads of it
    computes. *)
Ltac destruct_state s :=
  destruct s as [hist busy created enabled pending nodes next notices st copy
                   typed btn store started [voices rec readable writable hmsg] tr];
  cbn [history isProcessing recognition voiceEnabled speechPending conversation
       next_node intel status status_copy input_value voiceToggle localStorage
       engine_started host trace synth speech_recognition storage_readable
       storage_writable host_message] in *.

(** Reads fields off assignments. *)
Ltac fields :=
  cbn [history isProcessing recognition voiceEnabled speechPending conversation
       next_node intel status status_copy input_value voiceToggle localStorage
       engine_started host trace synth speech_recognition storage_readable
       storage_writable host_message set_history set_isProcessing
       set_recognition set_voiceEnabled set_conversation set_next_node
       set_intel set_status set_status_copy set_input_value set_voiceToggle
       set_localStorage set_engine_started set_trace fst snd].

Lemma snoc2 {A} (l : list A) a b : l ++ [a; b] = (l ++ [a]) ++ [b].
Proof. rewrite <- !app_assoc. reflexivity. Qed.

Lemma snoc3 {A} (l : list A) a b c : l ++ [a; b; c] = ((l ++ [a]) ++ [b]) ++ [c].
Proof. rewrite <- !app_assoc. reflexivity. Qed.

(** ** Strings *)

Lemma str_eqb_nil_false m : m <> [] -> str_eqb m [] = false.
Proof. intros H. unfold str_eqb. apply bool_decide_eq_false. exact H. Qed.

Lemma trimStart_spaces m : forallb is_js_space m = true -> trimStart m = [].
Proof.
  induction m as [| c rest IH]; simpl; [reflexivity |].
  destruct (is_js_space c); simpl; [exact IH | discriminate].
Qed.

Lemma whitespace_trims_to_nothing m : forallb is_js_space m = true -> trim m = [].
Proof.
  intros H. unfold trim. rewrite (trimStart_spaces _ H). reflexivity.
Qed.

(** ** The guards of [sendCommand] *)

Lemma call_dropped m x :
  sendCommand m (page x) = (Normal None, page x) -> call m x = x.
Proof.
  intros H. unfold call, submitting. rewrite H. destruct x; reflexivity.
Qed.

Lemma sendCommand_busy m s :
  isProcessing s = true -> sendCommand m s = (Normal None, s).
Proof.
  intros Hbusy. unfold sendCommand. js_step. rewrite Hbusy, orb_true_r. reflexivity.
Qed.

(** C3: a call made while the in-flight flag is set does nothing at all:
    the state, and with it the history, the status, the transcript, the
    input box and the requests sent, is the one it found, and no call is
    left suspended. *)
Theorem sendCommand_dropped_while_in_flight (m : jsstring) (x : Session) :
  isProcessing (page x) = true ->
  sendCommand m (page x) = (Normal None, page x) /\ call m x = x.
Proof.
  intros Hbusy. pose proof (sendCommand_busy m (page x) Hbusy) as H.
  split; [exact H | apply call_dropped, H].
Qed.

(** C9: a message whose trimmed form is empty is dropped in silence: the
    call completes normally and the state, and with it the history, the
    transcript, the store, the notices and the requests sent, is untouched. *)
Theorem sendCommand_blank_is_silent (m : jsstring) (x : Session) :
  trim m = [] ->
  sendCommand m (page x) = (Normal None, page x) /\ call m x = x.
Proof.
  intros Hblank.
  assert (H : sendCommand m (page x) = (Normal None, page x)).
  { unfold sendCommand. js_step.
    destruct (str_eqb m [] || isProcessing (page x)); [reflexivity |].
    rewrite Hblank. reflexivity. }
  split; [exact H | apply call_dropped, H].
Qed.

(** ** The history store *)

Lemma slice_last_length {A} n (l : list A) : length (slice_last n l) = min n (length l).
Proof. unfold slice_last. rewrite length_drop. lia. Qed.

Lemma slice_last_suffix {A} n (l : list A) :
  take (length l - n) l ++ slice_last n l = l.
Proof. unfold slice_last. apply take_drop. Qed.

(** What [JSON.stringify] keeps: everything but the numbers that are not
    finite. *)
Lemma jsonify_finite : forall v, finite v = true -> jsonify v = v.
Proof.
  fix IH 1. intros [| b | repr | str | items | props]; cbn [finite jsonify]; intros H;
    try reflexivity.
  - destruct (non_finite repr); [discriminate H | reflexivity].
  - f_equal. induction items as [| x rest IHrest]; [reflexivity |].
    cbn [forallb List.map] in *. apply andb_prop in H as [Hx Hrest].
    rewrite (IH x Hx), (IHrest Hrest). reflexivity.
  - f_equal. induction props as [| [k x] rest IHrest]; [reflexivity |].
    cbn [forallb List.map] in *. apply andb_prop in H as [Hx Hrest].
    rewrite (IH x Hx), (IHrest Hrest). reflexivity.
Qed.

Lemma jsonify_all_finite (l : list json) :
  forallb finite l = true -> jsonify <$> l = l.
Proof.
  induction l as [| v rest IH]; [reflexivity |]. cbn [forallb]. intros H.
  apply andb_prop in H as [Hv Hrest].
  change (jsonify <$> (v :: rest)) with (jsonify v :: (jsonify <$> rest)).
  rewrite (jsonify_finite v Hv), (IH Hrest). reflexivity.
Qed.




Lemma persistHistory_eq s :
  persistHistory s
  = (Normal tt,
     if storage_writable (host s)
     then set_localStorage
            (<[storage_key := JSON_stringify (slice_last 20 (history s))]> (localStorage s)) s
     else s).
Proof.
  unfold persistHistory, localStorage_setItem. js_step.
  destruct (storage_writable (host s)); reflexivity.
Qed.

(** C4, as the script has it: whatever the history holds,
    [persistHistory] hands the store the text of the last [min 20 n] of its
    [n] entries, in their order, and nothing else: at most 20 entries, a
    suffix of the session's log. The text reads back as these entries, but
    for the numbers in them that are not finite, which it gives as [null];
    so it reads back as the very entries when they hold no such number, as
    Messages with a text for content do. When the store refuses the write
    nothing is stored. *)
Theorem persistHistory_writes_recent_suffix (s : State) :
  let written := slice_last 20 (history s) in
  localStorage (run persistHistory s) !! storage_key
  = (if storage_writable (host s)
     then Some (Text_json (JArr (jsonify <$> written)))
     else localStorage s !! storage_key)
  /\ (forallb finite written = true -> jsonify <$> written = written)
  /\ length (jsonify <$> written) = length written
  /\ (length written <= 20)%nat
  /\ length written = min 20 (length (history s))
  /\ (exists older, history s = older ++ written)
  /\ history (run persistHistory s) = history s
  /\ result persistHistory s = Normal tt.
Proof.
  intros written. unfold run, result. rewrite persistHistory_eq. cbn [fst snd].
  repeat split.
  - destruct (storage_writable (host s)); [| reflexivity].
    cbn [localStorage set_localStorage]. apply lookup_insert_eq.
  - apply jsonify_all_finite.
  - apply length_fmap.
  - unfold written. rewrite slice_last_length. lia.
  - apply slice_last_length.
  - exists (take (length (history s) - 20) (history s)).
    symmetry. apply slice_last_suffix.
  - destruct (storage_writable (host s)); reflexivity.
Qed.

(** ** A call that passes the guards *)

Lemma sendCommand_accepts m s :
  isProcessing s = false -> trim m <> [] ->
  let s' := run (sendCommand m) s in
  let turn := Message "user" (JStr (trim m)) in
  result (sendCommand m) s = Normal (Some (S (next_node s)))
  /\ history s' = history s ++ [turn]
  /\ isProcessing s' = true
  /\ (status s', status_copy s') = (js "thinking", js "Processing")
  /\ conversation s' =
       conversation s ++
         [user_node (next_node s) (trim m); placeholder_node (S (next_node s))]
  /\ next_node s' = S (S (next_node s))
  /\ intel s' = intel s
  /\ input_value s' = []
  /\ voiceEnabled s' = voiceEnabled s
  /\ host s' = host s
  /\ localStorage s' =
       (if storage_writable (host s)
        then <[storage_key := JSON_stringify (slice_last 20 (history s ++ [turn]))]>
               (localStorage s)
        else localStorage s)
  /\ trace s' =
       trace s ++
         [Scroll_to_end; Scroll_to_end;
          Fetch (js "/api/assistant") (trim m) (slice_last 12 (history s ++ [turn]))].
Proof.
  intros Hp Ht.
  assert (Hm : str_eqb m [] = false).
  { apply str_eqb_nil_false. intros ->. apply Ht. reflexivity. }
  apply str_eqb_nil_false in Ht.
  unfold run, result, sendCommand. js_step. rewrite Hp, Hm. cbn [orb]. rewrite Ht.
  destruct_state s. subst.
  destruct writable; repeat split;
    rewrite ?(snoc2 nodes), ?(snoc3 tr); reflexivity.
Qed.

(** ** Events that arrive while the request is out *)

Lemma toggleVoiceInput_settled : preserves settled_part toggleVoiceInput.
Proof. unfold settled_part. framing. Qed.

Lemma onstart_settled : preserves settled_part onstart.
Proof. unfold settled_part. framing. Qed.

Lemma onend_settled : preserves settled_part onend.
Proof. unfold settled_part. framing. Qed.

Lemma onerror_settled : preserves settled_part onerror.
Proof. unfold settled_part. framing. Qed.

Lemma settled_part_busy s s' :
  settled_part s' = settled_part s -> isProcessing s' = isProcessing s.
Proof. unfold settled_part. congruence. Qed.

Lemma on_submit_busy s :
  isProcessing s = true -> on_submit s = (Normal None, s).
Proof.
  intros Hbusy. unfold on_submit. js_step. apply sendCommand_busy, Hbusy.
Qed.

Lemma interleaved_step x ev :
  interleaved ev = true -> isProcessing (page x) = true ->
  settled_part (page (step x ev)) = settled_part (page x)
  /\ inflight (step x ev) = inflight x.
Proof.
  intros Hev Hbusy. destruct ev; try discriminate Hev; cbn [step].
  - split; reflexivity.
  - unfold submitting. rewrite (on_submit_busy _ Hbusy). split; reflexivity.
  - unfold submitting, on_command. js_step.
    rewrite on_submit_busy by exact Hbusy. split; reflexivity.
  - split; [apply toggleVoiceInput_settled | reflexivity].
  - split; [apply onstart_settled | reflexivity].
  - unfold submitting, onresult.
    destruct (str_eqb (trim heard) []); [split; reflexivity |].
    js_step. rewrite on_submit_busy by exact Hbusy. split; reflexivity.
  - split; [apply onerror_settled | reflexivity].
  - split; [| reflexivity]. unfold handling. cbn [page].
    assert (H : preserves settled_part (write (set_engine_started false);; onend)).
    { unfold settled_part. framing. }
    apply H.
Qed.

Lemma interleaved_steps evs : forall x,
  forallb interleaved evs = true -> isProcessing (page x) = true ->
  settled_part (page (steps x evs)) = settled_part (page x)
  /\ inflight (steps x evs) = inflight x.
Proof.
  induction evs as [| ev evs IH]; intros x Hevs Hbusy; [split; reflexivity |].
  cbn [forallb] in Hevs. apply andb_prop in Hevs as [Hev Hevs].
  destruct (interleaved_step x ev Hev Hbusy) as [Hpart Hfl].
  cbn [steps fold_left]. fold (steps (step x ev) evs).
  destruct (IH (step x ev) Hevs) as [Hpart' Hfl'].
  - rewrite (settled_part_busy _ _ Hpart). exact Hbusy.
  - split; congruence.
Qed.

(** The listeners that submit do so by a call of [sendCommand]: the form
    with the text of the input box, a command button and the recognition
    engine after writing their text into it. *)
Lemma step_Submit x : step x Submit = call (input_value (page x)) x.
Proof. reflexivity. Qed.

Lemma step_Click_command x command :
  step x (Click_command command) = call command (step x (Type_text command)).
Proof. reflexivity. Qed.

Lemma step_Engine_result x heard :
  trim heard <> [] ->
  step x (Engine_result heard) = call (trim heard) (step x (Type_text (trim heard))).
Proof.
  intros H. cbn [step]. unfold submitting, onresult.
  rewrite (str_eqb_nil_false _ H). reflexivity.
Qed.

(** While the request of an accepted call is out, a further call is
    dropped, whatever happened in between. *)
Lemma second_call_dropped x first evs second :
  isProcessing (page x) = false -> trim first <> [] ->
  forallb interleaved evs = true ->
  let x1 := steps (call first x) evs in
  isProcessing (page x1) = true /\ call second x1 = x1.
Proof.
  intros Hidle Hfirst Hevs. cbv zeta.
  destruct (sendCommand_accepts first (page x) Hidle Hfirst) as (Hres & _ & Hbusy & _).
  assert (Hcall : isProcessing (page (call first x)) = true).
  { unfold call, submitting, run, result in *.
    destruct (sendCommand first (page x)) as [c s1]. cbn [fst snd] in *.
    subst c. exact Hbusy. }
  destruct (interleaved_steps evs _ Hevs Hcall) as [Hpart _].
  apply settled_part_busy in Hpart. rewrite Hcall in Hpart.
  split; [exact Hpart | apply call_dropped, sendCommand_busy, Hpart].
Qed.

(** ** Stepping through a computation *)

Lemma bind_normal {A B} (m : JS A) (k : A -> JS B) s a s1 :
  m s = (Normal a, s1) -> (m ≫= k) s = k a s1.
Proof. intros H. js_unfold. rewrite H. reflexivity. Qed.

Lemma bind_throw {A B} (m : JS A) (k : A -> JS B) s e s1 :
  m s = (Throw e, s1) -> (m ≫= k) s = (Throw e, s1).
Proof. intros H. js_unfold. rewrite H. reflexivity. Qed.

Lemma try_catch_bind {A B} (m : JS A) (k : A -> JS B) h s a s1 :
  m s = (Normal a, s1) -> try_catch (m ≫= k) h s = try_catch (k a) h s1.
Proof. intros H. unfold try_catch. rewrite (bind_normal _ _ _ _ _ H). reflexivity. Qed.

Lemma try_catch_bind_throw {A B} (m : JS A) (k : A -> JS B) h s e s1 :
  m s = (Throw e, s1) -> try_catch (m ≫= k) h s = h e s1.
Proof. intros H. unfold try_catch. rewrite (bind_throw _ _ _ _ _ H). reflexivity. Qed.

Lemma run_try_finally {A} (body : JS A) final s :
  run (try_finally body final) s = run final (run body s).
Proof.
  unfold run, try_finally. destruct (body s) as [c s1]. cbn [snd].
  destruct (final s1) as [[[] | e] s2]; reflexivity.
Qed.

(** ** The operations on the transcript *)

Lemma removeChild_child child s :
  existsb (fun n => Nat.eqb (node_id n) child) (conversation s) = true ->
  removeChild child s
  = (Normal tt,
     set_conversation
       (List.filter (fun n => negb (Nat.eqb (node_id n) child)) (conversation s)) s).
Proof. intros H. unfold removeChild. js_step. rewrite H. reflexivity. Qed.

Lemma content_of_message role content :
  prop (Message role content) "content" = Some content.
Proof.
  unfold Message, prop. cbn [assoc].
  replace (str_eqb (js "role") (js "content")) with false by reflexivity.
  replace (str_eqb (js "content") (js "content")) with true by reflexivity.
  reflexivity.
Qed.


(** Removing a fresh handle removes that node and no other. *)
Lemma filter_fresh child (nodes : list node) :
  Forall (fun n => (node_id n < child)%nat) nodes ->
  List.filter (fun n => negb (Nat.eqb (node_id n) child)) nodes = nodes.
Proof.
  induction 1 as [| n rest Hn _ IH]; cbn [List.filter]; [reflexivity |].
  destruct (Nat.eqb_spec (node_id n) child) as [E | _]; [lia |].
  cbn [negb]. rewrite IH. reflexivity.
Qed.



(** ** The request settles *)

(** The [finally] block runs on every path and resolves the status from
    the voice flag alone. *)
Lemma sendCommand_resume_finally placeholder o s :
  let s' := run (sendCommand_resume placeholder o) s in
  isProcessing s' = false
  /\ voiceEnabled s' = voiceEnabled s
  /\ (status s', status_copy s')
     = (if voiceEnabled s
        then (js "thinking", js "Listening")
        else (js "idle", js "Systems Idle")).
Proof.
  cbv zeta. unfold sendCommand_resume. rewrite run_try_finally.
  assert (Hv : preserves voiceEnabled
                 (try_catch (try_block placeholder o) (catch_block placeholder)))
    by framing.
  specialize (Hv s). revert Hv.
  generalize (run (try_catch (try_block placeholder o) (catch_block placeholder)) s).
  intros s1 Hv. rewrite <- Hv. destruct_state s1.
  destruct enabled; repeat split; reflexivity.
Qed.

Lemma get_eq data k s : data <> JNull -> get data k s = (Normal (prop data k), s).
Proof. intros H. destruct data; [contradiction | reflexivity..]. Qed.

Lemma outcome_cases h o :
  (exists e, failure h o = Some e /\ answered o = None)
  \/ (exists code data,
        o = Fetch_resolved code (Body_json data) /\ ok code = true /\ data <> JNull
        /\ failure h o = None /\ answered o = Some (reply_content data)).
Proof.
  destruct o as [e | code [data | e]]; cbn [failure answered].
  - left. eauto.
  - destruct (ok code) eqn:Hok; [| left; eauto].
    destruct data; try (right; do 2 eexists; repeat split; [exact Hok | discriminate]).
    left. eauto.
  - destruct (ok code); left; eauto.
Qed.


Lemma try_block_throws placeholder o s e :
  failure (host s) o = Some e -> try_block placeholder o s = (Throw e, s).
Proof.
  unfold try_block.
  destruct o as [e' | code b]; cbn [failure].
  - intros [= <-]. apply bind_throw. reflexivity.
  - destruct (ok code) eqn:Hok.
    + destruct b as [data | e'].
      * destruct data; intros [= <-].
        erewrite bind_normal by (unfold await_data; rewrite Hok; reflexivity).
        reflexivity.
      * intros [= <-]. apply bind_throw. unfold await_data. rewrite Hok. reflexivity.
    + intros [= <-]. apply bind_throw. unfold await_data. rewrite Hok. reflexivity.
Qed.

(** Whatever the outcome, the history gains the assistant's Message when
    the request was answered, and nothing otherwise. *)
Lemma sendCommand_resume_history placeholder o s :
  history (run (sendCommand_resume placeholder o) s)
  = history s ++ match answered o with
                 | Some content => [Message "assistant" content]
                 | None => []
                 end.
Proof.
  unfold sendCommand_resume. rewrite run_try_finally.
  assert (Hfin : preserves history finally_block) by framing.
  rewrite Hfin. unfold run.
  destruct (outcome_cases (host s) o)
    as [(e & Hfail & ->) | (code & data & -> & Hok & Hdata & _ & ->)].
  - unfold try_catch. rewrite (try_block_throws _ _ _ _ Hfail).
    assert (Hcatch : preserves history (catch_block placeholder e)) by framing.
    rewrite app_nil_r. apply Hcatch.
  - unfold try_block.
    erewrite try_catch_bind by (unfold await_data; rewrite Hok; reflexivity).
    erewrite try_catch_bind by (apply get_eq; exact Hdata).
    cbv beta zeta.
    erewrite try_catch_bind by reflexivity.
    erewrite try_catch_bind by reflexivity.
    match goal with
    | |- history (snd (?m ?s1)) = _ =>
        assert (Hrest : preserves history m) by framing;
        transitivity (history s1); [exact (Hrest s1) | reflexivity]
    end.
Qed.


Lemma sent_app s s' t : trace s' = trace s ++ t -> sent s' = sent s ++ requests t.
Proof. unfold sent, requests. intros ->. apply List.filter_app. Qed.

Lemma bind_total {A B} (m : JS A) (k : A -> JS B) s a :
  result m s = Normal a -> (m ≫= k) s = k a (run m s).
Proof.
  unfold result, run. intros H. js_unfold. destruct (m s) as [c s1].
  cbn [fst] in H. subst c. reflexivity.
Qed.


(** Rewrites an observation of [run m s] into that of [s], for as long as
    [m] is seen to leave it alone. *)
Ltac peel f :=
  repeat match goal with
  | |- context [f (run ?m ?s)] =>
      let P := fresh "P" in
      assert (P : preserves f m) by framing;
      rewrite (P s); clear P
  end.






Lemma forallb_true_Forall {A} (f : A -> bool) l :
  forallb f l = true -> Forall (fun x => f x = true) l.
Proof.
  induction l as [| x rest IH]; cbn [forallb]; intros H; [constructor |].
  apply andb_prop in H as [Hx Hrest]. constructor; [exact Hx | apply IH, Hrest].
Qed.

(** ** Answers that can be shown *)


Lemma printable_text v :
  printable v = true -> v <> JNull ->
  exists text, ToString v = Some text /\ text_content (Some v) = Some text.
Proof.
  unfold printable. destruct (ToString v) as [text |] eqn:Htext; [| discriminate].
  intros _ Hv. exists text. split; [reflexivity |].
  destruct v; [contradiction | exact Htext ..].
Qed.

Lemma printable_text_content v :
  printable v = true -> exists text, text_content (Some v) = Some text.
Proof.
  intros Hv. destruct v; try (apply printable_text in Hv as (text & _ & Htext);
                              [eauto | discriminate]).
  eexists. reflexivity.
Qed.

Lemma forEach_total {A} (f : A -> JS unit) items :
  Forall (fun x => forall s, result (f x) s = Normal tt) items ->
  forall s, result (forEach items f) s = Normal tt.
Proof.
  induction 1 as [| x rest Hx _ IH]; intros s; cbn [forEach]; [reflexivity |].
  unfold result at 1. rewrite (bind_total _ _ _ _ (Hx s)). apply IH.
Qed.

Lemma pushIntel_total items s :
  forallb printable items = true -> result (pushIntel items) s = Normal tt.
Proof.
  intros Hitems. destruct items as [| item rest]; [reflexivity |].
  unfold pushIntel, result. erewrite bind_normal by reflexivity.
  apply forEach_total.
  apply forallb_true_Forall in Hitems. eapply Forall_impl; [exact Hitems |].
  intros x Hx s'. destruct (printable_text_content x Hx) as [text Htext].
  unfold result, textContent. rewrite Htext. reflexivity.
Qed.





(** ** A whole submission *)


(** A submission that passes the guards settles on a page that differs
    from the one the call left only in what the interleaved events may
    touch, with the placeholder the call rendered. *)
Lemma submission_settles x m evs o :
  isProcessing (page x) = false -> trim m <> [] ->
  forallb interleaved evs = true ->
  exists s2,
    settled_part s2 = settled_part (run (sendCommand m) (page x))
    /\ submission x m evs o
       = {| page := run (sendCommand_resume (S (next_node (page x))) o) s2;
            inflight := None |}.
Proof.
  intros Hidle Hm Hevs.
  destruct (sendCommand_accepts m (page x) Hidle Hm) as (Hres & _ & Hbusy & _).
  unfold submission, call, submitting, run, result in *.
  destruct (sendCommand m (page x)) as [c s1]. cbn [fst snd] in *. subst c.
  set (x1 := {| page := s1; inflight := Some (S (next_node (page x))) |}).
  destruct (interleaved_steps evs x1 Hevs Hbusy) as [Hpart Hfl].
  exists (page (steps x1 evs)). split; [exact Hpart |].
  cbn [step]. rewrite Hfl. reflexivity.
Qed.

(** C1, as the script has it: when a submission that passed the guards
    has run to completion, whatever the outcome of the request, the
    in-flight flag is down and the status is ["thinking"] with the copy
    "Listening" if the voice flag is set at that moment, and ["idle"] with
    "Systems Idle" otherwise. *)
Theorem status_resolves_after_submission
    (x : Session) (m : jsstring) (evs : list event) (o : outcome) :
  isProcessing (page x) = false -> trim m <> [] ->
  forallb interleaved evs = true ->
  let y := submission x m evs o in
  isProcessing (page y) = false
  /\ inflight y = None
  /\ (status (page y), status_copy (page y))
     = (if voiceEnabled (page y)
        then (js "thinking", js "Listening")
        else (js "idle", js "Systems Idle")).
Proof.
  intros Hidle Hm Hevs. cbv zeta.
  destruct (submission_settles x m evs o Hidle Hm Hevs) as (s2 & _ & ->).
  cbn [page inflight].
  destruct (sendCommand_resume_finally (S (next_node (page x))) o s2)
    as (Hbusy & Hvoice & Hstatus).
  rewrite Hvoice. repeat split; assumption.
Qed.







(** ** Restoring the history *)

Lemma bind_result_throw {A B} (m : JS A) (k : A -> JS B) s e :
  result m s = Throw e -> (m ≫= k) s = (Throw e, run m s).
Proof.
  unfold result, run. intros H. js_unfold. destruct (m s) as [c s1].
  cbn [fst] in H. subst c. reflexivity.
Qed.

Lemma renderMessage_history item : preserves history (renderMessage item).
Proof. framing. Qed.

Lemma classList_add_valid classes token s :
  valid_token token = true ->
  classList_add classes token s
  = (Normal (if bool_decide (token ∈ classes) then classes else classes ++ [token]), s).
Proof.
  unfold valid_token, classList_add. intros H.
  apply andb_prop in H as [H1 H2].
  apply negb_true_iff in H1, H2. rewrite H1, H2. reflexivity.
Qed.

Lemma classList_add_invalid classes token s :
  valid_token token = false -> exists e, classList_add classes token s = (Throw e, s).
Proof.
  unfold valid_token, classList_add. intros H.
  destruct (str_eqb token []); [eexists; reflexivity |].
  destruct (existsb is_ascii_whitespace token); [eexists; reflexivity | discriminate H].
Qed.

Lemma converted_class_token item :
  (if is_str (prop item "role") "assistant"
   then mret (js "assistant")
   else DOMString (prop item "role"))
  = converted (class_token item).
Proof.
  unfold class_token, DOMString. cbv zeta.
  destruct (is_str (prop item "role") "assistant"); reflexivity.
Qed.

(** [renderMessage] throws exactly on the entries that are not
    [renderable]. *)
Lemma renderMessage_result item s :
  if renderable item
  then result (renderMessage item) s = Normal (next_node s)
  else exists e, result (renderMessage item) s = Throw e.
Proof.
  assert (Hcases : item = JNull \/ item <> JNull)
    by (destruct item; [left; reflexivity | right; discriminate ..]).
  destruct Hcases as [-> | Hitem]; [eexists; reflexivity |].
  replace (renderable item)
    with (match class_token item, text_content (prop item "content") with
          | Some token, Some _ => valid_token token
          | _, _ => false
          end)
    by (destruct item; [contradiction | reflexivity ..]).
  unfold result, renderMessage.
  rewrite (bind_normal _ _ _ _ _ (get_eq item "role" s Hitem)).
  rewrite (bind_normal _ _ _ _ _ (get_eq item "content" s Hitem)).
  rewrite (bind_normal _ _ _ _ _ (get_eq item "speaking" s Hitem)).
  cbv zeta. rewrite converted_class_token.
  destruct (class_token item) as [token |]; [| eexists; reflexivity].
  erewrite bind_normal by reflexivity.
  destruct (valid_token token) eqn:Hvalid.
  - rewrite (bind_normal _ _ _ _ _ (classList_add_valid _ _ _ Hvalid)).
    erewrite bind_normal by reflexivity.
    unfold textContent.
    destruct (isProcessing s && _ && _).
    + erewrite bind_normal by (apply classList_add_valid; reflexivity).
      destruct (text_content (prop item "content")); [reflexivity | eexists; reflexivity].
    + erewrite bind_normal by reflexivity.
      destruct (text_content (prop item "content")); [reflexivity | eexists; reflexivity].
  - destruct (classList_add_invalid [] _ s Hvalid) as [e He].
    rewrite (bind_throw _ _ _ _ _ He).
    destruct (text_content (prop item "content")); exists e; reflexivity.
Qed.

Lemma forEach_render_result items : forall s,
  if forallb renderable items
  then result (forEach items (fun item => renderMessage item;; skip)) s = Normal tt
  else exists e, result (forEach items (fun item => renderMessage item;; skip)) s = Throw e.
Proof.
  induction items as [| item rest IH]; intros s; cbn [forallb forEach]; [reflexivity |].
  pose proof (renderMessage_result item s) as Hitem.
  destruct (renderable item); cbn [andb].
  - unfold result at 1 2.
    rewrite (bind_total (renderMessage item;; skip) _ s tt)
      by (unfold result; rewrite (bind_total _ _ _ _ Hitem); reflexivity).
    apply IH.
  - destruct Hitem as [e He]. exists e. unfold result.
    rewrite (bind_result_throw (renderMessage item;; skip) _ s e)
      by (unfold result; rewrite (bind_result_throw _ _ _ _ He); reflexivity).
    reflexivity.
Qed.

Lemma renderable_not_null item : renderable item = true -> item <> JNull.
Proof. intros H ->. discriminate H. Qed.

Lemma renderable_content item :
  renderable item = true -> exists text, to_string (prop item "content") = Some text.
Proof.
  intros H.
  assert (Htext : exists text, text_content (prop item "content") = Some text).
  { destruct item; try discriminate H; cbn [renderable] in H;
      destruct (class_token _); try discriminate H;
      destruct (text_content _); try discriminate H; eauto. }
  destruct Htext as [text Htext].
  destruct (prop item "content") as [[] |]; cbn [to_string text_content] in *; eauto.
Qed.

(** Labelling entries that were rendered does not throw and leaves the
    state alone. *)
Lemma mapM_labels (speaker : option json -> jsstring) entries :
  Forall (fun entry => renderable entry = true) entries ->
  forall s,
    exists labels,
      mapM (fun entry => role ← get entry "role"; content ← get entry "content";
                         text ← DOMString content;
                         mret (JStr (speaker role ++ js ": " ++ text))) entries s
      = (Normal (JStr <$> labels), s).
Proof.
  induction 1 as [| entry rest Hentry _ IH]; intros s; cbn [mapM];
    [exists []; reflexivity |].
  destruct (renderable_content entry Hentry) as [text Htext].
  destruct (IH s) as [labels Hlabels].
  exists ((speaker (prop entry "role") ++ js ": " ++ text) :: labels).
  erewrite bind_normal; cycle 1.
  { erewrite bind_normal by (apply get_eq, renderable_not_null, Hentry).
    erewrite bind_normal by (apply get_eq, renderable_not_null, Hentry).
    erewrite bind_normal by (unfold DOMString; rewrite Htext; reflexivity).
    reflexivity. }
  erewrite bind_normal by exact Hlabels. reflexivity.
Qed.

Lemma printable_strings labels : forallb printable (JStr <$> labels) = true.
Proof. induction labels as [| label rest IH]; [reflexivity | exact IH]. Qed.

Lemma Forall_slice_last {A} (P : A -> Prop) n (l : list A) :
  Forall P l -> Forall P (slice_last n l).
Proof. unfold slice_last. apply Forall_drop. Qed.

Lemma localStorage_getItem_eq k s :
  storage_readable (host s) = true ->
  localStorage_getItem k s = (Normal (localStorage s !! k), s).
Proof. intros H. unfold localStorage_getItem. js_step. rewrite H. reflexivity. Qed.

Lemma localStorage_getItem_denied k s :
  storage_readable (host s) = false ->
  exists e, localStorage_getItem k s = (Throw e, s).
Proof.
  intros H. unfold localStorage_getItem. js_step. rewrite H. eexists. reflexivity.
Qed.

(** C7, as the script has it: [restoreHistory] leaves the history as it
    is when the key is absent or holds the empty text; it resets it to empty
    when the store cannot be read, when the text is not JSON, when the value
    is not an array, and when rendering one of the entries throws; any other
    array becomes the history as it stands, with no check of the shape of
    its entries. *)
Theorem restoreHistory_accepts_any_array (s : State) :
  history (run restoreHistory s)
  = (if storage_readable (host s)
     then match localStorage s !! storage_key with
          | None | Some Text_empty => history s
          | Some Text_malformed => []
          | Some (Text_json (JArr items)) =>
              if forallb renderable items then items else []
          | Some (Text_json _) => []
          end
     else []).
Proof.
  unfold restoreHistory, run, try_catch.
  destruct (storage_readable (host s)) eqn:Hread.
  2: { destruct (localStorage_getItem_denied storage_key s Hread) as [e He].
       rewrite (bind_throw _ _ _ _ _ He). reflexivity. }
  rewrite (bind_normal _ _ _ _ _ (localStorage_getItem_eq storage_key s Hread)).
  destruct (localStorage s !! storage_key) as [[| | v] |]; try reflexivity.
  erewrite bind_normal by reflexivity.
  erewrite bind_normal by reflexivity.
  erewrite bind_normal by reflexivity.
  assert (Hitems : (exists items, v = JArr items)
                   \/ match v with JArr _ => False | _ => True end)
    by (destruct v; eauto).
  destruct Hitems as [[items ->] | Hother]; [| destruct v; try reflexivity; contradiction].
  fields.
  pose proof (forEach_render_result items (set_history items s)) as Hrender.
  destruct (forallb renderable items) eqn:Hall.
  - rewrite (bind_total _ _ _ _ Hrender).
    erewrite bind_normal by reflexivity.
    assert (Hkept : preserves history
                      (forEach items (fun item => renderMessage item;; skip)))
      by framing.
    rewrite (Hkept (set_history items s)). fields.
    destruct items as [| item rest]; [reflexivity |].
    match goal with
    | |- context [(mapM ?f ?entries ≫= ?k) ?s0] =>
        assert (Hs3 : history s0 = item :: rest) by apply Hkept;
        revert Hs3; generalize s0; intros s3 Hs3;
        destruct (mapM_labels
                    (fun role => if is_str role "user" then js "You" else js "Jarvis")
                    entries
                    (Forall_slice_last _ 3 _ (forallb_true_Forall _ _ Hall)) s3)
          as [labels Hlabels]
    end.
    rewrite (bind_normal _ _ _ _ _ Hlabels). cbv beta.
    match goal with
    | |- context [pushIntel ?notices s3] =>
        pose proof (pushIntel_total notices s3 (printable_strings (_ :: _ :: _ :: labels)))
          as Htotal;
        assert (Hpush : preserves history (pushIntel notices)) by framing;
        specialize (Hpush s3); unfold result, run in Htotal, Hpush;
        destruct (pushIntel notices s3) as [c s4]
    end.
    cbn [fst snd] in *. subst c. cbn [snd]. rewrite Hpush. exact Hs3.
  - destruct Hrender as [e He].
    rewrite (bind_result_throw _ _ _ _ He). reflexivity.
Qed.

(** ** The status while a request is out *)

(** Every event other than switching voice input off leaves the status at
    ["thinking"] while the in-flight flag is set. *)
Lemma thinking_kept_by_other_events x ev :
  isProcessing (page x) = true -> status (page x) = js "thinking" ->
  interleaved ev = true ->
  (ev = Click_voice -> voiceEnabled (page x) = false) ->
  status (page (step x ev)) = js "thinking".
Proof.
  intros Hbusy Hstatus Hev Hvoice.
  destruct ev; try discriminate Hev; cbn [step].
  - exact Hstatus.
  - unfold submitting. rewrite (on_submit_busy _ Hbusy). exact Hstatus.
  - unfold submitting, on_command. js_step.
    rewrite on_submit_busy by exact Hbusy. exact Hstatus.
  - specialize (Hvoice eq_refl). destruct x as [s fl]. cbn [page handling] in *.
    destruct_state s. subst.
    destruct rec, created, started; reflexivity.
  - reflexivity.
  - unfold submitting, onresult.
    destruct (str_eqb (trim heard) []); [exact Hstatus |].
    js_step. rewrite on_submit_busy by exact Hbusy. exact Hstatus.
  - destruct x as [s fl]. cbn [page handling] in *. destruct_state s. subst. reflexivity.
  - destruct x as [s fl]. cbn [page handling] in *. destruct_state s. subst. reflexivity.
Qed.

(** C2: with voice input on and a request out, a click on the voice
    button sets the status to ["idle"], copy "Voice Link Offline", while the
    in-flight flag is still set and the call still suspended. *)
Theorem voice_toggle_off_drops_thinking :
  let x := steps at_rest [Click_voice; Type_text (js "hello"); Submit] in
  let y := step x Click_voice in
  (isProcessing (page x), status (page x)) = (true, js "thinking")
  /\ (isProcessing (page y), inflight y) = (true, Some 1%nat)
  /\ (status (page y), status_copy (page y)) = (js "idle", js "Voice Link Offline").
Proof. vm_compute. repeat split. Qed.

(** ** Inputs at which the spec's sentences fail *)

(** Against C1 as stated: with voice input on, the status after a
    submission is ["thinking"], not ["listening"]. *)
Lemma status_after_submission_is_not_listening :
  let y := submission voice_on (js "status report") []
             (Fetch_resolved 200 (Body_json nominal)) in
  voiceEnabled (page y) = true
  /\ (status (page y), status_copy (page y)) = (js "thinking", js "Listening")
  /\ status (page y) <> js "listening".
Proof. vm_compute. repeat split. discriminate. Qed.


(** Against C4 as stated: a reply that is a number too large to be finite
    is recorded in the history as it is, and written to the store as
    [null]: what the store holds is not the suffix of the history. *)
Lemma persistHistory_writes_null_for_infinity :
  let y := page (answer_with (JObj [(js "reply", JNum (js "Infinity"))])) in
  history y
  = [Message "user" (JStr (js "status report")); Message "assistant" (JNum (js "Infinity"))]
  /\ localStorage (run persistHistory y) !! storage_key
     = Some (Text_json (JArr [Message "user" (JStr (js "status report"));
                              Message "assistant" JNull]))
  /\ localStorage (run persistHistory y) !! storage_key
     <> Some (Text_json (JArr (slice_last 20 (history y)))).
Proof. vm_compute. repeat split. discriminate. Qed.

(** Against C7 as stated: a stored array whose entry is not a
    Message-shaped record is loaded as the history. *)
Lemma restoreHistory_loads_unshaped_entries :
  let s := initial_page chrome unshaped_store (js "idle") (js "Systems Idle") in
  well_formed_store (Text_json (JArr [unshaped_entry])) = false
  /\ localStorage s !! storage_key = Some (Text_json (JArr [unshaped_entry]))
  /\ history (run restoreHistory s) = [unshaped_entry]
  /\ history (run restoreHistory s) <> [].
Proof. vm_compute. repeat split. discriminate. Qed.

(** ** Node handles stay fresh *)

Section Maintenance.
Context (P : State -> Prop).

Lemma maintains_ret {A} (a : A) : maintains P (mret a).
Proof. intros s H. exact H. Qed.

Lemma maintains_bind {A B} (m : JS A) (k : A -> JS B) :
  maintains P m -> (forall a, maintains P (k a)) -> maintains P (m ≫= k).
Proof.
  intros Hm Hk s Hs. specialize (Hm s Hs). revert Hm. js_unfold.
  destruct (m s) as [[a | e] s1]; cbn [snd]; intros Hm.
  - apply Hk, Hm.
  - exact Hm.
Qed.

Lemma maintains_try_catch {A} (body : JS A) handler :
  maintains P body -> (forall e, maintains P (handler e)) ->
  maintains P (try_catch body handler).
Proof.
  intros Hm Hk s Hs. specialize (Hm s Hs). revert Hm. js_unfold.
  destruct (body s) as [[a | e] s1]; cbn [snd]; intros Hm.
  - exact Hm.
  - apply Hk, Hm.
Qed.

Lemma maintains_try_finally {A} (body : JS A) final :
  maintains P body -> maintains P final -> maintains P (try_finally body final).
Proof.
  intros Hm Hk s Hs. rewrite run_try_finally. apply Hk, Hm, Hs.
Qed.

Lemma maintains_forEach {A} (items : list A) g :
  (forall x, maintains P (g x)) -> maintains P (forEach items g).
Proof.
  intros Hg. induction items as [| x rest IH]; cbn [forEach].
  - apply maintains_ret.
  - apply maintains_bind; [apply Hg | intros _; exact IH].
Qed.
End Maintenance.

(** A computation that leaves the conversation and the handle counter
    alone keeps the handles fresh. *)
Lemma maintains_fresh_handles {A} (m : JS A) :
  preserves (fun s => (conversation s, next_node s)) m -> maintains fresh_handles m.
Proof.
  intros Hm s Hs. specialize (Hm s). cbv beta in Hm.
  injection Hm as Hconv Hnext. unfold fresh_handles. rewrite Hconv, Hnext. exact Hs.
Qed.

Lemma appendChild_fresh_handles classes avatar text :
  maintains fresh_handles (appendChild classes avatar text).
Proof.
  intros s Hs. unfold fresh_handles, run, appendChild in *. js_step. fields.
  apply Forall_app. split.
  - eapply Forall_impl; [exact Hs |]. cbn beta. intros; lia.
  - apply Forall_cons. split; [cbn [node_id]; lia | apply Forall_nil; exact I].
Qed.

Lemma removeChild_fresh_handles child : maintains fresh_handles (removeChild child).
Proof.
  intros s Hs. unfold fresh_handles, run, removeChild in *. js_step.
  destruct (existsb _ (conversation s)); [| exact Hs].
  cbn [snd]. fields. apply Forall_forall. intros n Hn.
  apply list_elem_of_In, List.filter_In in Hn as [Hn _].
  rewrite Forall_forall in Hs. apply Hs, list_elem_of_In, Hn.
Qed.

Ltac fresh_step :=
  lazymatch goal with
  | |- maintains _ (appendChild _ _ _) => apply appendChild_fresh_handles
  | |- maintains _ (removeChild _) => apply removeChild_fresh_handles
  | |- maintains _ (mbind _ _) => apply maintains_bind; [| intros ?]
  | |- maintains _ (try_catch _ _) => apply maintains_try_catch; [| intros ?]
  | |- maintains _ (try_finally _ _) => apply maintains_try_finally
  | |- maintains _ (forEach _ _) => apply maintains_forEach; intros ?
  | |- maintains _ (if ?b then _ else _) => destruct b
  | |- maintains _ (match ?x with _ => _ end) => destruct x
  | |- maintains _ (let _ := _ in _) => cbv zeta
  | |- maintains _ _ =>
      first
        [ solve [apply maintains_fresh_handles; framing]
        | progress unfold renderMessage, sendCommand, restoreHistory, try_block,
            catch_block, sendCommand_resume, on_submit, on_command, onresult,
            on_load ]
  end.

Ltac keeping_fresh := repeat fresh_step.

Lemma sendCommand_fresh_handles m : maintains fresh_handles (sendCommand m).
Proof. keeping_fresh. Qed.

Lemma sendCommand_resume_fresh_handles placeholder o :
  maintains fresh_handles (sendCommand_resume placeholder o).
Proof. keeping_fresh. Qed.

Lemma on_load_fresh_handles : maintains fresh_handles on_load.
Proof. keeping_fresh. Qed.

Lemma page_submitting m x : page (submitting m x) = run m (page x).
Proof.
  unfold submitting, run. destruct (m (page x)) as [[[ph |] | e] s]; reflexivity.
Qed.

(** Every event keeps the handles fresh, so they are on every page reached
    from the initial one. *)
Lemma step_fresh_handles x ev :
  fresh_handles (page x) -> fresh_handles (page (step x ev)).
Proof.
  intros Hx. destruct ev; cbn [step]; rewrite ?page_submitting; cbn [handling page].
  - exact Hx.
  - revert Hx. generalize (page x). change (maintains fresh_handles on_submit).
    keeping_fresh.
  - revert Hx. generalize (page x). change (maintains fresh_handles (on_command command)).
    keeping_fresh.
  - revert Hx. generalize (page x). apply maintains_fresh_handles. framing.
  - revert Hx. generalize (page x). apply maintains_fresh_handles. framing.
  - revert Hx. generalize (page x). change (maintains fresh_handles (onresult heard)).
    keeping_fresh.
  - revert Hx. generalize (page x). apply maintains_fresh_handles. framing.
  - revert Hx. generalize (page x). apply maintains_fresh_handles. framing.
  - destruct (inflight x); [| exact Hx]. cbn [page].
    apply sendCommand_resume_fresh_handles, Hx.
Qed.

Lemma steps_fresh_handles evs : forall x,
  fresh_handles (page x) -> fresh_handles (page (steps x evs)).
Proof.
  induction evs as [| ev evs IH]; intros x Hx; [exact Hx |].
  cbn [steps fold_left]. apply IH, step_fresh_handles, Hx.
Qed.

Lemma initial_page_fresh_handles h store st copy :
  fresh_handles (run on_load (initial_page h store st copy)).
Proof. apply on_load_fresh_handles. apply Forall_nil. exact I. Qed.

(** The [load] listener restores the history and does not touch it again. *)
Lemma on_load_history s : history (run on_load s) = history (run restoreHistory s).
Proof.
  unfold on_load.
  assert (Htotal : result restoreHistory s = Normal tt).
  { unfold result, restoreHistory, try_catch.
    match goal with |- context [?body s] => destruct (body s) as [[[] | e] s1] end;
      reflexivity. }
  unfold run at 1. rewrite (bind_total _ _ _ _ Htotal).
  match goal with
  | |- history (snd (?m ?s1)) = _ =>
      assert (Hrest : preserves history m) by framing; exact (Hrest s1)
  end.
Qed.

(** ** Runs of the script *)

(** Only the literal [false] suppresses speech. *)
Example speak_absent :
  said (page (answer_with (JObj [(js "reply", JStr (js "Done."))]))) = [JStr (js "Done.")].
Proof. vm_compute. reflexivity. Qed.

Example speak_false :
  said (page (answer_with (JObj [(js "reply", JStr (js "Done.")); (js "speak", JBool false)])))
  = [].
Proof. vm_compute. reflexivity. Qed.

Example speak_zero :
  said (page (answer_with (JObj [(js "reply", JStr (js "Done.")); (js "speak", JNum (js "0"))])))
  = [JStr (js "Done.")].
Proof. vm_compute. reflexivity. Qed.

Example speak_null :
  said (page (answer_with (JObj [(js "reply", JStr (js "Done.")); (js "speak", JNull)])))
  = [JStr (js "Done.")].
Proof. vm_compute. reflexivity. Qed.

Example speak_string_false :
  said (page (answer_with (JObj [(js "reply", JStr (js "Done."));
                                 (js "speak", JStr (js "false"))])))
  = [JStr (js "Done.")].
Proof. vm_compute. reflexivity. Qed.

(** A falsy reply gives way to the fallback; a truthy one, string or not,
    is kept as it is. *)
Example reply_empty :
  history (page (answer_with (JObj [(js "reply", JStr [])])))
  = [Message "user" (JStr (js "status report")); Message "assistant" (JStr fallback_reply)].
Proof. vm_compute. reflexivity. Qed.

Example reply_zero :
  history (page (answer_with (JObj [(js "reply", JNum (js "0"))])))
  = [Message "user" (JStr (js "status report")); Message "assistant" (JStr fallback_reply)].
Proof. vm_compute. reflexivity. Qed.

Example reply_number :
  history (page (answer_with (JObj [(js "reply", JNum (js "42"))])))
  = [Message "user" (JStr (js "status report")); Message "assistant" (JNum (js "42"))].
Proof. vm_compute. reflexivity. Qed.

(** A body that is [null] takes the failure path: nothing is recorded for
    the assistant and nothing is spoken. *)
Example body_null :
  let y := answer_with JNull in
  history (page y) = [Message "user" (JStr (js "status report"))]
  /\ said (page y) = []
  /\ intel (page y) = [js "Error encountered."; js "host error"].
Proof. vm_compute. repeat split. Qed.

(** The first scenario of the spec: the reply is shown and spoken; the
    intent is written to the status line and then overwritten by the
    [finally] block. *)
Example nominal_run :
  let y := answer_with nominal in
  conversation (page y)
  = [user_node 0 (js "status report"); assistant_node 2 (js "All systems nominal.")]
  /\ said (page y) = [JStr (js "All systems nominal.")]
  /\ (status (page y), status_copy (page y)) = (js "idle", js "Systems Idle").
Proof. vm_compute. repeat split. Qed.

(** Five stored messages are rendered in order and announced. *)
Example restore_five :
  let entry n := Message "user" (JStr (decimal n)) in
  let stored := [entry 1%nat; entry 2%nat; entry 3%nat; entry 4%nat; entry 5%nat] in
  let s := run on_load
             (initial_page chrome {[ storage_key := Text_json (JArr stored) ]}
                (js "idle") (js "Systems Idle")) in
  history s = stored
  /\ node_text <$> conversation s = [js "1"; js "2"; js "3"; js "4"; js "5"]
  /\ intel s = [js "Historical context restored."; js "Loaded 5 transmissions.";
                js "Jarvis is ready to continue the mission.";
                js "You: 3"; js "You: 4"; js "You: 5"].
Proof. vm_compute. repeat split. Qed.

(** ** Instances *)

Lemma sendCommand_dropped_while_in_flight_witness :
  sendCommand (js "open the pod bay doors") (page in_flight) = (Normal None, page in_flight)
  /\ call (js "open the pod bay doors") in_flight = in_flight.
Proof.
  apply (sendCommand_dropped_while_in_flight (js "open the pod bay doors") in_flight).
  reflexivity.
Defined.

Lemma sendCommand_blank_is_silent_witness :
  sendCommand [0x20; 0x9; 0xA0; 0x3000] (page at_rest) = (Normal None, page at_rest)
  /\ call [0x20; 0x9; 0xA0; 0x3000] at_rest = at_rest.
Proof.
  apply (sendCommand_blank_is_silent [0x20; 0x9; 0xA0; 0x3000] at_rest).
  reflexivity.
Defined.

Lemma status_resolves_after_submission_witness :
  let y := submission voice_on (js "status report") [Engine_start; Engine_end]
             (Fetch_resolved 200 (Body_json nominal)) in
  isProcessing (page y) = false
  /\ inflight y = None
  /\ (status (page y), status_copy (page y))
     = (if voiceEnabled (page y)
        then (js "thinking", js "Listening")
        else (js "idle", js "Systems Idle")).
Proof.
  apply (status_resolves_after_submission voice_on (js "status report")
           [Engine_start; Engine_end] (Fetch_resolved 200 (Body_json nominal)));
    [reflexivity | vm_compute; discriminate | reflexivity].
Defined.





(** * Further properties of the script *)

(** ** Trimming *)

Lemma trimStart_split s :
  exists pre, s = pre ++ trimStart s /\ forallb is_js_space pre = true.
Proof.
  induction s as [| c rest IH]; [exists []; split; reflexivity |].
  cbn [trimStart]. destruct (is_js_space c) eqn:Hc.
  - destruct IH as (pre & Hsplit & Hpre). exists (c :: pre). split.
    + cbn [app]. rewrite <- Hsplit. reflexivity.
    + cbn [forallb]. rewrite Hc. exact Hpre.
  - exists []. split; reflexivity.
Qed.

Lemma trimStart_head s :
  match head (trimStart s) with Some c => is_js_space c = false | None => True end.
Proof.
  induction s as [| c rest IH]; [exact I |].
  cbn [trimStart]. destruct (is_js_space c) eqn:Hc; [exact IH | exact Hc].
Qed.

Lemma trimStart_fixed s :
  match head s with Some c => is_js_space c = false | None => True end ->
  trimStart s = s.
Proof. destruct s as [| c rest]; [reflexivity |]. cbn. intros ->. reflexivity. Qed.

Lemma head_rev {A} (l : list A) : head (rev l) = last l.
Proof.
  induction l as [| x rest IH] using rev_ind; [reflexivity |].
  rewrite rev_unit, last_snoc. reflexivity.
Qed.

Lemma last_rev {A} (l : list A) : last (rev l) = head l.
Proof. rewrite <- head_rev, rev_involutive. reflexivity. Qed.

Lemma forallb_rev {A} (f : A -> bool) l : forallb f (rev l) = forallb f l.
Proof.
  induction l as [| x rest IH]; [reflexivity |].
  cbn [rev forallb]. rewrite forallb_app, IH. cbn [forallb].
  rewrite andb_true_r. apply andb_comm.
Qed.

Lemma trimEnd_split s :
  exists post, s = trimEnd s ++ post /\ forallb is_js_space post = true.
Proof.
  unfold trimEnd. destruct (trimStart_split (rev s)) as (pre & Hsplit & Hpre).
  exists (rev pre). split.
  - rewrite <- rev_app_distr, <- Hsplit, rev_involutive. reflexivity.
  - rewrite forallb_rev. exact Hpre.
Qed.

Lemma trimEnd_last s :
  match last (trimEnd s) with Some c => is_js_space c = false | None => True end.
Proof. unfold trimEnd. rewrite last_rev. apply trimStart_head. Qed.

Lemma trimEnd_fixed s :
  match last s with Some c => is_js_space c = false | None => True end ->
  trimEnd s = s.
Proof.
  intros H. unfold trimEnd. rewrite trimStart_fixed, rev_involutive; [reflexivity |].
  rewrite head_rev. exact H.
Qed.

Lemma trimEnd_head s :
  match head s with Some c => is_js_space c = false | None => True end ->
  match head (trimEnd s) with Some c => is_js_space c = false | None => True end.
Proof.
  intros H. destruct (trimEnd_split s) as (post & Hsplit & _).
  destruct (trimEnd s) as [| c rest]; [exact I |].
  rewrite Hsplit in H. exact H.
Qed.

Lemma trim_edges m : trimmed_edges (trim m).
Proof.
  unfold trim. split; [apply trimEnd_head, trimStart_head | apply trimEnd_last].
Qed.

Lemma trim_fixed s : trimmed_edges s -> trim s = s.
Proof.
  intros [Hhead Hlast]. unfold trim.
  rewrite (trimStart_fixed _ Hhead). apply trimEnd_fixed, Hlast.
Qed.

Lemma trim_idempotent m : trim (trim m) = trim m.
Proof. apply trim_fixed, trim_edges. Qed.

Lemma trim_split m :
  exists pre post,
    m = pre ++ trim m ++ post
    /\ forallb is_js_space pre = true /\ forallb is_js_space post = true.
Proof.
  destruct (trimStart_split m) as (pre & Hpre & Hblank).
  destruct (trimEnd_split (trimStart m)) as (post & Hpost & Hblank').
  exists pre, post. unfold trim. rewrite <- Hpost, <- Hpre. repeat split; assumption.
Qed.

(** X1: the text an accepted call records, renders and sends is the
    message without the whitespace at its two ends: it is not empty, has no
    strippable code unit at either end, and trimming it again changes
    nothing. *)
Theorem accepted_text_is_trimmed (m : jsstring) (s : State) :
  isProcessing s = false -> trim m <> [] ->
  let s' := run (sendCommand m) s in
  exists text pre post,
    m = pre ++ text ++ post
    /\ forallb is_js_space pre = true /\ forallb is_js_space post = true
    /\ text <> [] /\ trimmed_edges text /\ trim text = text
    /\ last (history s') = Some (Message "user" (JStr text))
    /\ last (trace s')
       = Some (Fetch (js "/api/assistant") text (slice_last 12 (history s'))).
Proof.
  intros Hidle Hm. cbv zeta.
  destruct (sendCommand_accepts m s Hidle Hm)
    as (_ & Hhist & _ & _ & _ & _ & _ & _ & _ & _ & _ & Htrace).
  destruct (trim_split m) as (pre & post & Hsplit & Hpre & Hpost).
  exists (trim m), pre, post. repeat split; try assumption.
  - apply trim_edges.
  - apply trim_edges.
  - apply trim_idempotent.
  - rewrite Hhist. apply last_snoc.
  - rewrite Htrace, Hhist.
    change [Scroll_to_end; Scroll_to_end;
            Fetch (js "/api/assistant") (trim m)
              (slice_last 12 (history s ++ [Message "user" (JStr (trim m))]))]
      with ([Scroll_to_end; Scroll_to_end]
            ++ [Fetch (js "/api/assistant") (trim m)
                  (slice_last 12 (history s ++ [Message "user" (JStr (trim m))]))]).
    rewrite app_assoc. apply last_snoc.
Qed.

Lemma accepted_text_is_trimmed_witness :
  let m := [0x9; 0x20] ++ js "status report" ++ [0xA0; 0xA] in
  let s' := run (sendCommand m) (page at_rest) in
  exists text pre post,
    m = pre ++ text ++ post
    /\ forallb is_js_space pre = true /\ forallb is_js_space post = true
    /\ text <> [] /\ trimmed_edges text /\ trim text = text
    /\ last (history s') = Some (Message "user" (JStr text))
    /\ last (trace s')
       = Some (Fetch (js "/api/assistant") text (slice_last 12 (history s'))).
Proof.
  apply (accepted_text_is_trimmed ([0x9; 0x20] ++ js "status report" ++ [0xA0; 0xA])
           (page at_rest)); [reflexivity | vm_compute; discriminate].
Defined.

(** X2: the context sent with a request is the last 12 entries of the
    history as it stands after the user's turn was recorded: it is never
    empty, never longer than 12, a suffix of the history, and ends with the
    turn being submitted. *)
Theorem request_context_is_recent_window (m : jsstring) (s : State) :
  isProcessing s = false -> trim m <> [] ->
  let s' := run (sendCommand m) s in
  exists context,
    sent s' = sent s ++ [Fetch (js "/api/assistant") (trim m) context]
    /\ length context = min 12 (S (length (history s)))
    /\ (exists older, history s' = older ++ context)
    /\ last context = Some (Message "user" (JStr (trim m))).
Proof.
  intros Hidle Hm. cbv zeta.
  destruct (sendCommand_accepts m s Hidle Hm)
    as (_ & Hhist & _ & _ & _ & _ & _ & _ & _ & _ & _ & Htrace).
  eexists. split; [| split; [| split]].
  - rewrite (sent_app _ _ _ Htrace). reflexivity.
  - rewrite slice_last_length, length_app. cbn [length]. lia.
  - rewrite Hhist. eexists. symmetry. apply slice_last_suffix.
  - unfold slice_last.
    replace (length (history s ++ [Message "user" (JStr (trim m))]) - 12)%nat
      with (length (history s) - 11)%nat by (rewrite length_app; cbn [length]; lia).
    rewrite drop_app_le by lia. apply last_snoc.
Qed.

Lemma request_context_is_recent_window_witness :
  let m := js "status report" in
  let s := page at_rest in
  let s' := run (sendCommand m) s in
  exists context,
    sent s' = sent s ++ [Fetch (js "/api/assistant") (trim m) context]
    /\ length context = min 12 (S (length (history s)))
    /\ (exists older, history s' = older ++ context)
    /\ last context = Some (Message "user" (JStr (trim m))).
Proof.
  apply (request_context_is_recent_window (js "status report") (page at_rest));
    [reflexivity | vm_compute; discriminate].
Defined.

(** ** Choosing a voice *)

Lemma prefix_ci_spec pat : forall s,
  prefix_ci pat s = true
  <-> exists mid post, s = mid ++ post /\ ascii_upper <$> mid = ascii_upper <$> pat.
Proof.
  induction pat as [| p pat IH]; intros s; cbn [prefix_ci].
  - split; [intros _; exists [], s; split; reflexivity | reflexivity].
  - destruct s as [| c s].
    + split; [discriminate |]. intros (mid & post & Hs & Hmid).
      destruct mid; [discriminate Hmid | discriminate Hs].
    + rewrite andb_true_iff, N.eqb_eq, IH. split.
      * intros (Hc & mid & post & -> & Hmid). exists (c :: mid), post.
        split; [reflexivity |]. cbn [fmap list_fmap]. rewrite Hc. f_equal. exact Hmid.
      * intros (mid & post & Hs & Hmid). destruct mid as [| c' mid]; [discriminate Hmid |].
        injection Hs as -> ->. injection Hmid as Hc Hmid. eauto.
Qed.

(** X3: the model of [/pattern/i.test(subject)] holds exactly when the
    subject contains the pattern up to the case of ASCII letters. *)
Theorem test_ci_spec (pat s : jsstring) :
  test_ci pat s = true
  <-> exists pre mid post,
        s = pre ++ mid ++ post /\ ascii_upper <$> mid = ascii_upper <$> pat.
Proof.
  induction s as [| c s IH]; cbn [test_ci]; rewrite orb_true_iff, prefix_ci_spec.
  - split.
    + intros [(mid & post & Hs & Hmid) | H]; [| discriminate H].
      exists [], mid, post. split; assumption.
    + intros (pre & mid & post & Hs & Hmid). left.
      destruct pre; [| discriminate Hs]. exists mid, post. split; assumption.
  - rewrite IH. split.
    + intros [(mid & post & Hs & Hmid) | (pre & mid & post & Hs & Hmid)].
      * exists [], mid, post. split; assumption.
      * exists (c :: pre), mid, post. rewrite Hs. split; [reflexivity | exact Hmid].
    + intros (pre & mid & post & Hs & Hmid). destruct pre as [| c' pre].
      * left. exists mid, post. split; assumption.
      * right. injection Hs as -> ->. exists pre, mid, post. split; [reflexivity | exact Hmid].
Qed.

Lemma find_first {A} (f : A -> bool) l x :
  List.find f l = Some x ->
  exists pre post, l = pre ++ x :: post /\ f x = true /\ forallb (fun y => negb (f y)) pre = true.
Proof.
  induction l as [| y rest IH]; cbn [List.find]; [discriminate |].
  destruct (f y) eqn:Hy.
  - intros [= ->]. exists [], rest. repeat split. exact Hy.
  - intros H. destruct (IH H) as (pre & post & -> & Hx & Hpre).
    exists (y :: pre), post. repeat split; [exact Hx |].
    cbn [forallb]. rewrite Hy. exact Hpre.
Qed.

Lemma find_none_forallb {A} (f : A -> bool) l :
  List.find f l = None -> forallb (fun y => negb (f y)) l = true.
Proof.
  induction l as [| y rest IH]; cbn [List.find forallb]; [reflexivity |].
  destruct (f y); [discriminate | exact IH].
Qed.

(** X4: [speak] takes the first voice, in the order the host lists them,
    whose name matches any of the preferred patterns, whichever pattern it
    is; failing that the first whose language matches [en-GB]; failing that
    the first voice; and none only when the host lists none. *)
Theorem choose_voice_spec (voices : list voice) :
  match choose_voice voices with
  | None => voices = []
  | Some v =>
      exists earlier later,
        voices = earlier ++ v :: later
        /\ ((preferred v = true /\ forallb (fun w => negb (preferred w)) earlier = true)
            \/ (forallb (fun w => negb (preferred w)) voices = true
                /\ british v = true
                /\ forallb (fun w => negb (british w)) earlier = true)
            \/ (forallb (fun w => negb (preferred w)) voices = true
                /\ forallb (fun w => negb (british w)) voices = true
                /\ earlier = []))
  end.
Proof.
  unfold choose_voice. fold preferred. fold british.
  change (fun v => existsb (fun pattern => test_ci pattern (voice_name v)) preferredVoices)
    with preferred.
  change (fun v => test_ci (js "en-GB") (voice_lang v)) with british.
  destruct (List.find preferred voices) as [v |] eqn:Hpref.
  - destruct (find_first _ _ _ Hpref) as (pre & post & -> & Hv & Hpre).
    exists pre, post. split; [reflexivity |]. left. split; assumption.
  - apply find_none_forallb in Hpref.
    destruct (List.find british voices) as [v |] eqn:Hbrit.
    + destruct (find_first _ _ _ Hbrit) as (pre & post & Hsplit & Hv & Hpre).
      exists pre, post. split; [exact Hsplit |]. right. left. repeat split; assumption.
    + apply find_none_forallb in Hbrit.
      destruct voices as [| v rest]; [reflexivity |].
      exists [], rest. split; [reflexivity |]. right. right. repeat split; assumption.
Qed.

(** The order of the patterns plays no part: a voice that matches the last
    pattern wins over a later one that matches the first. *)
Example guy_before_jarvis :
  choose_voice [Voice (js "Microsoft Guy Online") (js "en-US");
                Voice (js "Jarvis") (js "en-GB")]
  = Some (Voice (js "Microsoft Guy Online") (js "en-US")).
Proof. vm_compute. reflexivity. Qed.

(** X5: [speak] changes nothing on the page. Where the host has no speech
    synthesis it reaches no host call; where it has, it cancels the speech
    in progress first, and then utters the text with the chosen voice, or
    throws when the text does not convert, the cancellation done. *)
Theorem speak_cancels_then_utters (text : json) (s : State) :
  run (speak text) s = set_trace (trace (run (speak text) s)) s
  /\ match synth (host s), ToString text with
     | None, _ =>
         speak text s = (Normal tt, set_trace (trace s ++ [Speak_call text]) s)
     | Some voices, Some uttered =>
         result (speak text) s = Normal tt
         /\ trace (run (speak text) s)
            = trace s ++ [Speak_call text; Synth_cancel;
                          Synth_speak {| u_text := uttered; u_rate := (102 # 100)%Q;
                                         u_pitch := (105 # 100)%Q; u_lang := js "en-US";
                                         u_voice := choose_voice voices |}]
     | Some voices, None =>
         (exists e, result (speak text) s = Throw e)
         /\ trace (run (speak text) s) = trace s ++ [Speak_call text; Synth_cancel]
     end.
Proof.
  destruct_state s. destruct voices as [voices |].
  - unfold run, result, speak, DOMString, to_string, emit. js_step. fields.
    destruct (ToString text) as [uttered |]; cbn [converted]; js_step; fields.
    + rewrite (snoc3 tr). repeat split.
    + rewrite (snoc2 tr). repeat split. eexists. reflexivity.
  - split; reflexivity.
Qed.

(** ** Rendering *)

(** What [renderMessage] appends for an entry it can render. *)
Lemma renderMessage_renders item token text s :
  item <> JNull -> class_token item = Some token -> valid_token token = true ->
  text_content (prop item "content") = Some text ->
  let role := prop item "role" in
  let speaking := match prop item "speaking" with
                  | None => Some (JBool false)
                  | Some v => Some v
                  end in
  let node :=
    {| node_id := next_node s;
       node_classes :=
         if isProcessing s && is_str role "assistant" && truthy speaking
         then [js "assistant"; js "thinking"] else [token];
       node_avatar :=
         if is_str role "user" then js "You"
         else if is_str role "assistant" then js "J" else js "SYS";
       node_text := text |} in
  renderMessage item s
  = (Normal (next_node s),
     set_trace (trace s ++ [Scroll_to_end])
       (set_next_node (S (next_node s))
          (set_conversation (conversation s ++ [node]) s))).
Proof.
  intros Hitem Htoken Hvalid Htext. cbv zeta. unfold renderMessage.
  rewrite (bind_normal _ _ _ _ _ (get_eq item "role" s Hitem)).
  rewrite (bind_normal _ _ _ _ _ (get_eq item "content" s Hitem)).
  rewrite (bind_normal _ _ _ _ _ (get_eq item "speaking" s Hitem)).
  cbv zeta. rewrite converted_class_token, Htoken.
  erewrite bind_normal by reflexivity.
  rewrite (bind_normal _ _ _ _ _ (classList_add_valid _ _ _ Hvalid)).
  erewrite bind_normal by reflexivity.
  unfold textContent. rewrite Htext.
  unfold class_token in Htoken. cbv zeta in Htoken.
  replace (match prop item "speaking" with
           | Some _ => prop item "speaking"
           | None => Some (JBool false)
           end)
    with (match prop item "speaking" with
          | None => Some (JBool false)
          | Some v => Some v
          end) by (destruct (prop item "speaking"); reflexivity).
  destruct (is_str (prop item "role") "assistant") eqn:Hrole.
  - injection Htoken as <-.
    assert (Huser : is_str (prop item "role") "user" = false).
    { destruct (prop item "role") as [[| | | r | |] |]; try reflexivity.
      unfold is_str, str_eqb in *. apply bool_decide_eq_true in Hrole. subst r.
      reflexivity. }
    rewrite Huser, andb_true_r.
    destruct (isProcessing s && truthy _).
    + erewrite bind_normal by reflexivity. reflexivity.
    + erewrite bind_normal by reflexivity. reflexivity.
  - rewrite andb_false_r. cbn [andb].
    erewrite bind_normal by reflexivity. reflexivity.
Qed.

Lemma renderable_parts item :
  renderable item = true ->
  item <> JNull
  /\ exists token text,
       class_token item = Some token /\ valid_token token = true
       /\ text_content (prop item "content") = Some text.
Proof.
  intros H. split; [apply renderable_not_null, H |].
  destruct item; try discriminate H; cbn [renderable] in H;
    destruct (class_token _) as [token |]; try discriminate H;
    destruct (text_content _) as [text |]; try discriminate H;
    exists token, text; repeat split; exact H.
Qed.

Lemma renderMessage_throws item s :
  renderable item = false -> exists e, renderMessage item s = (Throw e, s).
Proof.
  intros H.
  assert (Hcases : item = JNull \/ item <> JNull)
    by (destruct item; [left; reflexivity | right; discriminate ..]).
  destruct Hcases as [-> | Hitem]; [eexists; reflexivity |].
  replace (renderable item)
    with (match class_token item, text_content (prop item "content") with
          | Some token, Some _ => valid_token token
          | _, _ => false
          end) in H
    by (destruct item; [contradiction | reflexivity ..]).
  unfold renderMessage.
  rewrite (bind_normal _ _ _ _ _ (get_eq item "role" s Hitem)).
  rewrite (bind_normal _ _ _ _ _ (get_eq item "content" s Hitem)).
  rewrite (bind_normal _ _ _ _ _ (get_eq item "speaking" s Hitem)).
  cbv zeta. rewrite converted_class_token.
  destruct (class_token item) as [token |]; [| eexists; reflexivity].
  erewrite bind_normal by reflexivity.
  destruct (valid_token token) eqn:Hvalid.
  - rewrite (bind_normal _ _ _ _ _ (classList_add_valid _ _ _ Hvalid)).
    erewrite bind_normal by reflexivity.
    unfold textContent.
    destruct (text_content (prop item "content")); [discriminate H |].
    destruct (isProcessing s && _ && _).
    + erewrite bind_normal by (apply classList_add_valid; reflexivity).
      eexists. reflexivity.
    + erewrite bind_normal by reflexivity. eexists. reflexivity.
  - destruct (classList_add_invalid [] _ s Hvalid) as [e He].
    rewrite (bind_throw _ _ _ _ _ He). exists e. reflexivity.
Qed.

(** X6: [renderMessage] is all or nothing. An entry that is not [null],
    whose role gives a valid class token and whose content converts to text
    adds one node at the end of the transcript, under a handle no other node
    has, with the avatar of its role and, only for a speaking assistant
    entry rendered while a request is out, the class [thinking]; any other
    entry makes it throw with the page exactly as it was. *)
Theorem renderMessage_all_or_nothing (item : json) (s : State) :
  if renderable item
  then exists node,
         renderMessage item s
         = (Normal (next_node s),
            set_trace (trace s ++ [Scroll_to_end])
              (set_next_node (S (next_node s))
                 (set_conversation (conversation s ++ [node]) s)))
         /\ node_id node = next_node s
         /\ text_content (prop item "content") = Some (node_text node)
         /\ node_avatar node
            = (if is_str (prop item "role") "user" then js "You"
               else if is_str (prop item "role") "assistant" then js "J" else js "SYS")
         /\ (js "thinking" ∈ node_classes node
             <-> isProcessing s = true /\ is_str (prop item "role") "assistant" = true
                 /\ truthy (prop item "speaking") = true
                 \/ class_token item = Some (js "thinking"))
  else exists e, renderMessage item s = (Throw e, s).
Proof.
  destruct (renderable item) eqn:Hitem; [| apply renderMessage_throws, Hitem].
  destruct (renderable_parts item Hitem) as (Hnull & token & text & Htoken & Hvalid & Htext).
  eexists. split; [apply (renderMessage_renders item token text s); assumption |].
  cbn [node_id node_avatar node_text node_classes]. repeat split; try assumption.
  - replace (truthy match prop item "speaking" with
                    | Some v => Some v
                    | None => Some (JBool false)
                    end)
      with (truthy (prop item "speaking"))
      by (destruct (prop item "speaking"); reflexivity).
    destruct (isProcessing s); destruct (is_str (prop item "role") "assistant");
      destruct (truthy (prop item "speaking")); cbn [andb];
      rewrite ?list_elem_of_singleton; intros H;
      solve [left; repeat split | right; rewrite Htoken, H; reflexivity].
  - replace (truthy match prop item "speaking" with
                    | Some v => Some v
                    | None => Some (JBool false)
                    end)
      with (truthy (prop item "speaking"))
      by (destruct (prop item "speaking"); reflexivity).
    intros [(-> & -> & ->) | Hthinking].
    + cbn [andb]. apply list_elem_of_In. right. left. reflexivity.
    + rewrite Htoken in Hthinking. injection Hthinking as ->.
      destruct (_ && _ && _); apply list_elem_of_In; [right |]; left; reflexivity.
Qed.

Lemma existsb_last_handle (nodes : list node) (n : node) :
  existsb (fun k => Nat.eqb (node_id k) (node_id n)) (nodes ++ [n]) = true.
Proof.
  rewrite existsb_app. cbn [existsb]. rewrite Nat.eqb_refl. cbn [orb].
  apply orb_true_r.
Qed.

(** X7: a rendered entry taken out again by the handle [renderMessage]
    gave leaves the transcript as it was before the rendering, as the
    placeholder is put up and taken down: no other node goes with it. *)
Theorem render_then_remove (item : json) (s : State) :
  fresh_handles s -> renderable item = true ->
  let shown_and_removed := clone ← renderMessage item; removeChild clone in
  result shown_and_removed s = Normal tt
  /\ conversation (run shown_and_removed s) = conversation s
  /\ fresh_handles (run shown_and_removed s).
Proof.
  intros Hfresh Hitem. cbv zeta.
  destruct (renderable_parts item Hitem) as (Hnull & token & text & Htoken & Hvalid & Htext).
  pose proof (renderMessage_renders item token text s Hnull Htoken Hvalid Htext) as Hrender.
  cbv zeta in Hrender.
  unfold result, run. rewrite (bind_normal _ _ _ _ _ Hrender).
  match type of Hrender with
  | context [conversation s ++ [?n]] => set (node := n) in *
  end.
  rewrite removeChild_child by (fields; apply (existsb_last_handle _ node)).
  cbn [fst snd]. fields.
  assert (Hconv : List.filter (fun n => negb (Nat.eqb (node_id n) (next_node s)))
                    (conversation s ++ [node]) = conversation s).
  { rewrite List.filter_app, (filter_fresh _ _ Hfresh).
    cbn [List.filter node node_id]. rewrite Nat.eqb_refl. apply app_nil_r. }
  rewrite Hconv. repeat split.
  unfold fresh_handles in *. fields.
  eapply Forall_impl; [exact Hfresh |]. cbn beta. intros; lia.
Qed.

Lemma render_then_remove_witness :
  let item := Message "assistant" (JStr bullets) in
  let s := page in_flight in
  let shown_and_removed := clone ← renderMessage item; removeChild clone in
  result shown_and_removed s = Normal tt
  /\ conversation (run shown_and_removed s) = conversation s
  /\ fresh_handles (run shown_and_removed s).
Proof.
  apply (render_then_remove (Message "assistant" (JStr bullets)) (page in_flight));
    [| reflexivity].
  unfold fresh_handles. vm_compute. repeat (constructor; try lia).
Defined.

(** ** The notice board *)

Lemma pushIntel_loop items : forall s,
  forallb printable items = true ->
  exists texts,
    Forall2 (fun item text => text_content (Some item) = Some text) items texts
    /\ forEach items (fun item => text ← textContent (Some item);
                                  shown ← read intel;
                                  write (set_intel (shown ++ [text]))) s
       = (Normal tt, set_intel (intel s ++ texts) s).
Proof.
  induction items as [| item rest IH]; intros s Hitems.
  - exists []. split; [constructor |]. rewrite app_nil_r. destruct s; reflexivity.
  - cbn [forallb] in Hitems. apply andb_prop in Hitems as [Hitem Hrest].
    destruct (printable_text_content item Hitem) as [text Htext].
    destruct (IH (set_intel (intel s ++ [text]) s) Hrest) as (texts & Hall & Hloop).
    exists (text :: texts). split; [constructor; assumption |].
    cbn [forEach]. erewrite bind_normal.
    2: { unfold textContent. rewrite Htext. reflexivity. }
    rewrite Hloop. fields. rewrite <- app_assoc. reflexivity.
Qed.

(** X8: [pushIntel] with no notices leaves the board as it is; with
    notices that convert to text it replaces the whole board by their
    texts, one line each and in their order, whatever stood there. *)
Theorem pushIntel_replaces (items : list json) (s : State) :
  forallb printable items = true ->
  exists texts,
    Forall2 (fun item text => text_content (Some item) = Some text) items texts
    /\ pushIntel items s
       = (Normal tt, match items with [] => s | _ :: _ => set_intel texts s end).
Proof.
  intros Hitems. destruct items as [| item rest].
  - exists []. split; [constructor | reflexivity].
  - destruct (pushIntel_loop (item :: rest) (set_intel [] s) Hitems)
      as (texts & Hall & Hloop).
    exists texts. split; [exact Hall |].
    unfold pushIntel. erewrite bind_normal by reflexivity. exact Hloop.
Qed.

Lemma pushIntel_replaces_witness :
  let items := [JStr (js "Diagnostics complete."); JNum (js "42"); JNull] in
  let s := page in_flight in
  exists texts,
    Forall2 (fun item text => text_content (Some item) = Some text) items texts
    /\ pushIntel items s
       = (Normal tt, match items with [] => s | _ :: _ => set_intel texts s end).
Proof.
  apply (pushIntel_replaces [JStr (js "Diagnostics complete."); JNum (js "42"); JNull]
           (page in_flight)).
  reflexivity.
Defined.

(** X9: when a notice does not convert to text, [pushIntel] throws with
    the board already cleared and holding only the notices before it. *)
Theorem pushIntel_stops_at_unprintable (before : list json) (bad : json)
    (after : list json) (s : State) :
  forallb printable before = true -> printable bad = false ->
  exists texts e,
    Forall2 (fun item text => text_content (Some item) = Some text) before texts
    /\ pushIntel (before ++ bad :: after) s = (Throw e, set_intel texts s).
Proof.
  intros Hbefore Hbad.
  assert (Hloop : forall shown s0,
             forallb printable shown = true ->
             exists texts e,
               Forall2 (fun item text => text_content (Some item) = Some text) shown texts
               /\ forEach (shown ++ bad :: after)
                    (fun item => text ← textContent (Some item);
                                 shown ← read intel;
                                 write (set_intel (shown ++ [text]))) s0
                  = (Throw e, set_intel (intel s0 ++ texts) s0)).
  { induction shown as [| item rest IH]; intros s0 Hshown.
    - exists []. eexists. split; [constructor |]. cbn [app forEach].
      erewrite bind_throw.
      2: { erewrite bind_throw; [reflexivity |].
           unfold textContent, text_content, printable in *.
           destruct bad; try discriminate Hbad;
             destruct (ToString _); try discriminate Hbad; reflexivity. }
      rewrite app_nil_r. destruct s0; reflexivity.
    - cbn [forallb] in Hshown. apply andb_prop in Hshown as [Hitem Hrest].
      destruct (printable_text_content item Hitem) as [text Htext].
      destruct (IH (set_intel (intel s0 ++ [text]) s0) Hrest) as (texts & e & Hall & Hrun).
      exists (text :: texts), e. split; [constructor; assumption |].
      cbn [app forEach]. erewrite bind_normal.
      2: { unfold textContent. rewrite Htext. reflexivity. }
      rewrite Hrun. fields. rewrite <- app_assoc. reflexivity. }
  destruct (Hloop before (set_intel [] s) Hbefore) as (texts & e & Hall & Hrun).
  exists texts, e. split; [exact Hall |].
  unfold pushIntel. destruct before; cbn [app]; erewrite bind_normal by reflexivity;
    exact Hrun.
Qed.

Lemma pushIntel_stops_at_unprintable_witness :
  let bad := JObj [(js "toString", JNull)] in
  exists texts e,
    Forall2 (fun item text => text_content (Some item) = Some text)
      [JStr (js "Diagnostics complete.")] texts
    /\ pushIntel ([JStr (js "Diagnostics complete.")] ++ bad :: [JStr (js "Done.")])
         (page in_flight)
       = (Throw e, set_intel texts (page in_flight)).
Proof.
  apply (pushIntel_stops_at_unprintable [JStr (js "Diagnostics complete.")]
           (JObj [(js "toString", JNull)]) [JStr (js "Done.")] (page in_flight));
    reflexivity.
Defined.

(** ** The session as a whole *)

Lemma sendCommand_blank m s : trim m = [] -> sendCommand m s = (Normal None, s).
Proof.
  intros Hblank. unfold sendCommand. js_step.
  destruct (str_eqb m [] || isProcessing s); [reflexivity |].
  rewrite Hblank. reflexivity.
Qed.

(** A call is dropped, or it is accepted and leaves the call suspended. *)
Lemma call_dropped_or_accepted m x :
  (call m x = x /\ (isProcessing (page x) = true \/ trim m = []))
  \/ (isProcessing (page x) = false /\ trim m <> []
      /\ call m x = {| page := run (sendCommand m) (page x);
                       inflight := Some (S (next_node (page x))) |}).
Proof.
  destruct (isProcessing (page x)) eqn:Hbusy.
  - left. split; [apply call_dropped, sendCommand_busy, Hbusy | left; reflexivity].
  - destruct (decide (trim m = [])) as [Hblank | Htext].
    + left. split; [apply call_dropped, sendCommand_blank, Hblank | right; exact Hblank].
    + right. repeat split; try assumption.
      destruct (sendCommand_accepts m (page x) Hbusy Htext) as (Hres & _).
      unfold call, submitting, run, result in *.
      destruct (sendCommand m (page x)) as [c s1]. cbn [fst snd] in *.
      subst c. reflexivity.
Qed.

Lemma sent_accepted m s :
  isProcessing s = false -> trim m <> [] ->
  sent (run (sendCommand m) s)
  = sent s ++ [Fetch (js "/api/assistant") (trim m)
                 (slice_last 12 (history s ++ [Message "user" (JStr (trim m))]))].
Proof.
  intros Hidle Htext.
  destruct (sendCommand_accepts m s Hidle Htext)
    as (_ & _ & _ & _ & _ & _ & _ & _ & _ & _ & _ & Htrace).
  unfold sent. rewrite Htrace, (snoc3 (trace s)), !requests_snoc, !app_nil_r.
  reflexivity.
Qed.

(** What a call does to the in-flight flag, the history, the requests
    sent and the host. *)
Lemma call_summary m x :
  (coherent x ->
   coherent (call m x)
   /\ (length (sent (page (call m x))) + room (page (call m x))
       = length (sent (page x)) + room (page x))%nat)
  /\ (exists added, history (page (call m x)) = history (page x) ++ added)
  /\ host (page (call m x)) = host (page x).
Proof.
  destruct (call_dropped_or_accepted m x) as [[-> _] | (Hidle & Htext & ->)].
  - repeat split; try assumption. exists []. symmetry. apply app_nil_r.
  - destruct (sendCommand_accepts m (page x) Hidle Htext)
      as (_ & Hhist & Hbusy & _ & _ & _ & _ & _ & _ & Hhost & _).
    cbv zeta in *. unfold coherent, room. cbn [page inflight].
    rewrite (sent_accepted m (page x) Hidle Htext), Hbusy, Hidle, length_app.
    repeat split; [cbn [length]; lia | eexists; exact Hhist | exact Hhost].
Qed.

Lemma typed_settled text : preserves settled_part (write (set_input_value text)).
Proof. unfold settled_part. framing. Qed.

Lemma ended_settled : preserves settled_part (write (set_engine_started false);; onend).
Proof. unfold settled_part. framing. Qed.

Lemma sendCommand_resume_sent placeholder o :
  preserves (fun s => (sent s, host s)) (sendCommand_resume placeholder o).
Proof. unfold sendCommand_resume. framing. Qed.

Lemma settled_summary x y :
  settled_part (page y) = settled_part (page x) -> inflight y = inflight x ->
  (coherent x ->
   coherent y
   /\ (length (sent (page y)) + room (page y) = length (sent (page x)) + room (page x))%nat)
  /\ (exists added, history (page y) = history (page x) ++ added)
  /\ host (page y) = host (page x).
Proof.
  unfold settled_part, coherent, room. intros Hpart Hfl.
  injection Hpart as Hhist Hbusy _ _ _ _ Hhost _ Hsent.
  rewrite Hfl, Hbusy, Hsent. repeat split; try assumption.
  exists []. rewrite app_nil_r. exact Hhist.
Qed.

(** What one event does to the in-flight flag, the history, the requests
    sent and the host. *)
Lemma step_summary x ev :
  (coherent x ->
   coherent (step x ev)
   /\ (length (sent (page (step x ev))) + room (page (step x ev))
       <= length (sent (page x)) + room (page x)
          + (if interleaved ev then 0 else 1))%nat)
  /\ (exists added, history (page (step x ev)) = history (page x) ++ added)
  /\ host (page (step x ev)) = host (page x).
Proof.
  assert (Hquiet : forall m : JS unit,
             preserves settled_part m ->
             (coherent x ->
              coherent (handling m x)
              /\ (length (sent (page (handling m x))) + room (page (handling m x))
                  <= length (sent (page x)) + room (page x) + 0)%nat)
             /\ (exists added, history (page (handling m x)) = history (page x) ++ added)
             /\ host (page (handling m x)) = host (page x)).
  { intros m Hm.
    destruct (settled_summary x (handling m x) (Hm (page x)) eq_refl)
      as (Hc & Hh & Hhost).
    repeat split; try assumption; destruct (Hc H) as [Hc' Hn]; [exact Hc' | lia]. }
  assert (Hcall : forall m x',
             settled_part (page x') = settled_part (page x) ->
             inflight x' = inflight x ->
             (coherent x ->
              coherent (call m x')
              /\ (length (sent (page (call m x'))) + room (page (call m x'))
                  <= length (sent (page x)) + room (page x) + 0)%nat)
             /\ (exists added, history (page (call m x')) = history (page x) ++ added)
             /\ host (page (call m x')) = host (page x)).
  { intros m x' Hpart Hfl.
    destruct (settled_summary x x' Hpart Hfl) as (Hc & [a1 Hh] & Hhost).
    destruct (call_summary m x') as (Hc' & [a2 Hh'] & Hhost').
    split; [| split; [| congruence]].
    - intros Hx. destruct (Hc Hx) as [Hx' Hn]. destruct (Hc' Hx') as [Hy Hn'].
      split; [exact Hy | lia].
    - exists (a1 ++ a2). rewrite Hh', Hh, app_assoc. reflexivity. }
  destruct ev; cbn [interleaved].
  - apply Hquiet, typed_settled.
  - rewrite step_Submit. apply Hcall; reflexivity.
  - rewrite step_Click_command. apply Hcall; [apply typed_settled | reflexivity].
  - apply Hquiet, toggleVoiceInput_settled.
  - apply Hquiet, onstart_settled.
  - destruct (decide (trim heard = [])) as [Hblank | Htext].
    + replace (step x (Engine_result heard)) with x.
      * repeat split; [assumption | lia | exists []; symmetry; apply app_nil_r].
      * cbn [step]. unfold submitting, onresult. rewrite Hblank.
        destruct x; reflexivity.
    + rewrite (step_Engine_result _ _ Htext).
      apply Hcall; [apply typed_settled | reflexivity].
  - apply Hquiet, onerror_settled.
  - apply Hquiet, ended_settled.
  - cbn [step]. destruct (inflight x) as [placeholder |] eqn:Hfl.
    + cbn [page inflight]. unfold coherent, room in *. cbn [page inflight].
      destruct (sendCommand_resume_finally placeholder o (page x)) as (Hidle & _).
      cbv zeta in Hidle. rewrite Hidle, Hfl.
      pose proof (sendCommand_resume_sent placeholder o (page x)) as Hkept.
      cbv beta in Hkept. injection Hkept as Hsent Hhost. rewrite Hsent.
      split; [| split; [| exact Hhost]].
      * intros Hx. rewrite Hx. split; [reflexivity | lia].
      * eexists. apply sendCommand_resume_history.
    + repeat split; [assumption | lia | exists []; symmetry; apply app_nil_r].
Qed.

Lemma settles_cons ev evs :
  settles (ev :: evs) = ((if interleaved ev then 0 else 1) + settles evs)%nat.
Proof. unfold settles. cbn [List.filter]. destruct (interleaved ev); reflexivity. Qed.

Lemma steps_summary evs : forall x,
  (coherent x ->
   coherent (steps x evs)
   /\ (length (sent (page (steps x evs))) + room (page (steps x evs))
       <= length (sent (page x)) + room (page x) + settles evs)%nat)
  /\ (exists added, history (page (steps x evs)) = history (page x) ++ added)
  /\ host (page (steps x evs)) = host (page x).
Proof.
  induction evs as [| ev evs IH]; intros x.
  - repeat split; [assumption | cbn; lia | exists []; symmetry; apply app_nil_r].
  - destruct (step_summary x ev) as (Hc & [a1 Hh] & Hhost).
    destruct (IH (step x ev)) as (Hc' & [a2 Hh'] & Hhost').
    change (steps x (ev :: evs)) with (steps (step x ev) evs).
    rewrite settles_cons.
    split; [| split; [| congruence]].
    + intros Hx. destruct (Hc Hx) as [Hx' Hn]. destruct (Hc' Hx') as [Hy Hn'].
      split; [exact Hy | lia].
    + exists (a1 ++ a2). rewrite Hh', Hh, app_assoc. reflexivity.
Qed.

Lemma on_load_quiet : preserves (fun s => (isProcessing s, sent s, host s)) on_load.
Proof. unfold on_load, restoreHistory. framing. Qed.

Lemma loaded_coherent h store st copy :
  coherent (loaded h store st copy)
  /\ sent (page (loaded h store st copy)) = []
  /\ room (page (loaded h store st copy)) = 1%nat
  /\ host (page (loaded h store st copy)) = h.
Proof.
  pose proof (on_load_quiet (initial_page h store st copy)) as H. cbv beta in H.
  injection H as Hbusy Hsent Hhost.
  unfold coherent, loaded, room. cbn [page inflight]. rewrite Hbusy, Hsent, Hhost.
  repeat split.
Qed.

(** X10: on every page the script can reach from its load, whatever
    the user, the recognition engine and the network do and in whatever
    order, the in-flight flag is up exactly while a call of [sendCommand]
    is suspended at its request. *)
Theorem busy_exactly_while_suspended
    (h : Host) (store : gmap jsstring stored_text) (st copy : jsstring)
    (evs : list event) :
  let y := steps (loaded h store st copy) evs in
  isProcessing (page y) = true <-> inflight y <> None.
Proof.
  cbv zeta.
  destruct (loaded_coherent h store st copy) as (Hc & _).
  destruct (steps_summary evs (loaded h store st copy)) as (Hsteps & _).
  destruct (Hsteps Hc) as [Hy _].
  unfold coherent in Hy. rewrite Hy.
  destruct (inflight (steps (loaded h store st copy) evs)); split;
    congruence.
Qed.

(** X11: the script never has two requests out. Over any run from the
    load, the requests sent are at most the requests settled, plus one while
    a call is suspended. *)
Theorem one_request_at_a_time
    (h : Host) (store : gmap jsstring stored_text) (st copy : jsstring)
    (evs : list event) :
  let y := steps (loaded h store st copy) evs in
  (length (sent (page y)) <= settles evs + (if isProcessing (page y) then 1 else 0))%nat.
Proof.
  cbv zeta.
  destruct (loaded_coherent h store st copy) as (Hc & Hsent & Hroom & _).
  destruct (steps_summary evs (loaded h store st copy)) as (Hsteps & _).
  destruct (Hsteps Hc) as [_ Hn].
  rewrite Hsent, Hroom in Hn. unfold room in Hn. cbn [length] in Hn.
  destruct (isProcessing (page (steps (loaded h store st copy) evs))); lia.
Qed.


(** ** Voice input *)

Ltac link_leaf :=
  cbv beta;
  first
    [ reflexivity
    | unfold voice_link, engine_calls; fields;
      rewrite List.filter_app; cbn [List.filter]; rewrite app_nil_r; reflexivity ].

Ltac link_op :=
  lazymatch goal with
  | |- preserves _ (write _) => apply preserves_write; intros ?; link_leaf
  | |- preserves _ _ =>
      first
        [ frame_step
        | progress unfold emit, updateStatus, scrollConversationToEnd,
            classList_add, appendChild, removeChild, renderMessage, speak,
            pushIntel, JSON_parse, localStorage_setItem, localStorage_getItem,
            persistHistory, restoreHistory, voiceToggle_active, get, await_data,
            onstart, onend, onerror, try_block, catch_block, finally_block,
            sendCommand, sendCommand_resume, on_submit, on_command, onresult,
            DOMString, textContent, converted ]
  end.

Ltac linking := repeat link_op.

Lemma step_voice_link x ev :
  is_click_voice ev = false -> voice_link (page (step x ev)) = voice_link (page x).
Proof.
  intros Hev. destruct ev; try discriminate Hev; cbn [step];
    rewrite ?page_submitting; cbn [handling page];
    try (destruct (inflight x); cbn [page]; [| reflexivity]);
    match goal with
    | |- voice_link (run ?m ?s) = _ =>
        let P := fresh "P" in
        assert (P : preserves voice_link m) by linking; exact (P s)
    end.
Qed.

Lemma toggleVoiceInput_unsupported s :
  speech_recognition (host s) = false ->
  toggleVoiceInput s
  = (Normal tt,
     set_voiceToggle
       {| btn_active := btn_active (voiceToggle s); btn_disabled := true;
          btn_title := Some (js "Voice recognition not supported in this browser.") |} s).
Proof.
  intros H. unfold toggleVoiceInput, voiceToggle_disable. js_step. rewrite H.
  reflexivity.
Qed.

Lemma toggleVoiceInput_off s :
  speech_recognition (host s) = true -> voiceEnabled s = true ->
  toggleVoiceInput s
  = (Normal tt,
     set_status_copy (js "Voice Link Offline")
       (set_status (js "idle")
          (set_voiceToggle
             {| btn_active := false; btn_disabled := btn_disabled (voiceToggle s);
                btn_title := btn_title (voiceToggle s) |}
             (set_voiceEnabled false
                (set_trace (trace s ++ [Recognition_stop]) (set_recognition true s)))))).
Proof.
  intros Hhost Hon. unfold toggleVoiceInput. js_step. rewrite Hhost. cbn [negb].
  destruct_state s. subst. destruct created; reflexivity.
Qed.

Lemma toggleVoiceInput_on s :
  speech_recognition (host s) = true -> voiceEnabled s = false ->
  engine_started s = false ->
  toggleVoiceInput s
  = (Normal tt,
     set_voiceEnabled true
       (set_trace (trace s ++ [Recognition_start])
          (set_engine_started true (set_recognition true s)))).
Proof.
  intros Hhost Hoff Hengine. unfold toggleVoiceInput. js_step. rewrite Hhost. cbn [negb].
  destruct_state s. subst. destruct created; reflexivity.
Qed.

Lemma toggleVoiceInput_running s :
  speech_recognition (host s) = true -> voiceEnabled s = false ->
  engine_started s = true ->
  toggleVoiceInput s
  = (Throw (Err (js "InvalidStateError") (host_message (host s) Recognition_started)),
     set_recognition true s).
Proof.
  intros Hhost Hoff Hengine. unfold toggleVoiceInput. js_step. rewrite Hhost. cbn [negb].
  destruct_state s. subst. destruct created; reflexivity.
Qed.



Lemma on_load_voice_link s :
  voiceEnabled (run on_load s) = voiceEnabled s
  /\ recognition (run on_load s) = recognition s
  /\ engine_calls (trace (run on_load s)) = engine_calls (trace s)
  /\ host (run on_load s) = host s.
Proof.
  assert (P : preserves (fun s => (voiceEnabled s, recognition s, engine_calls (trace s),
                                   host s)) on_load).
  { unfold on_load, voiceToggle_disable. repeat link_op. }
  specialize (P s). cbv beta in P. injection P as -> -> -> ->. repeat split.
Qed.

(** X14: on a host without speech recognition the voice link stays
    down whatever happens after the load: the voice flag is never set, no
    recognizer is made and the engine is never called. *)
Theorem no_voice_without_recognition
    (h : Host) (store : gmap jsstring stored_text) (st copy : jsstring)
    (evs : list event) :
  speech_recognition h = false ->
  let y := page (steps (loaded h store st copy) evs) in
  voiceEnabled y = false /\ recognition y = false /\ engine_calls (trace y) = [].
Proof.
  intros Hhost. cbv zeta.
  assert (Hinv : forall x,
             speech_recognition (host (page x)) = false ->
             voiceEnabled (page x) = false /\ recognition (page x) = false
             /\ engine_calls (trace (page x)) = [] ->
             voiceEnabled (page (steps x evs)) = false
             /\ recognition (page (steps x evs)) = false
             /\ engine_calls (trace (page (steps x evs))) = []).
  { induction evs as [| ev evs IH]; intros x Hx Hdown; [exact Hdown |].
    change (steps x (ev :: evs)) with (steps (step x ev) evs).
    destruct (step_summary x ev) as (_ & _ & Hsame).
    apply IH; [rewrite Hsame; exact Hx |].
    destruct (is_click_voice ev) eqn:Hev.
    - destruct ev; try discriminate Hev. cbn [step handling page]. unfold run.
      rewrite (toggleVoiceInput_unsupported _ Hx). exact Hdown.
    - pose proof (step_voice_link x ev Hev) as Hlink. unfold voice_link in Hlink.
      injection Hlink as -> -> _ _ ->. exact Hdown. }
  destruct (on_load_voice_link (initial_page h store st copy))
    as (Hflag & Hmade & Hcalls & Hsame).
  apply Hinv; cbn [loaded page]; [rewrite Hsame; exact Hhost |].
  rewrite Hflag, Hmade, Hcalls. repeat split.
Qed.

Lemma no_voice_without_recognition_witness :
  let y := page (steps (loaded firefox ∅ (js "idle") (js "Systems Idle"))
                   [Click_voice; Type_text (js "hello"); Submit; Click_voice]) in
  voiceEnabled y = false /\ recognition y = false /\ engine_calls (trace y) = [].
Proof.
  apply (no_voice_without_recognition firefox ∅ (js "idle") (js "Systems Idle")
           [Click_voice; Type_text (js "hello"); Submit; Click_voice]).
  reflexivity.
Defined.

(** X15: switching voice input off only asks the engine to stop, so a
    click that comes before the engine has ended finds it running: its
    [start()] throws, the listener ends there and the voice flag stays
    down, the status still saying that the link is offline. *)
Theorem restart_before_engine_end_throws (x : Session) :
  speech_recognition (host (page x)) = true -> voiceEnabled (page x) = true ->
  engine_started (page x) = true ->
  let off := step x Click_voice in
  let y := step off Click_voice in
  result toggleVoiceInput (page off)
  = Throw (Err (js "InvalidStateError") (host_message (host (page x)) Recognition_started))
  /\ voiceEnabled (page off) = false /\ voiceEnabled (page y) = false
  /\ (status (page y), status_copy (page y)) = (js "idle", js "Voice Link Offline")
  /\ trace (page y) = trace (page x) ++ [Recognition_stop].
Proof.
  intros Hhost Hon Hengine. cbv zeta. cbn [step handling page]. unfold result, run.
  rewrite (toggleVoiceInput_off _ Hhost Hon). cbn [snd].
  rewrite toggleVoiceInput_running; [| exact Hhost | reflexivity | exact Hengine].
  repeat split.
Qed.

Lemma restart_before_engine_end_throws_witness :
  let x := voice_on in
  let off := step x Click_voice in
  let y := step off Click_voice in
  result toggleVoiceInput (page off)
  = Throw (Err (js "InvalidStateError") (host_message (host (page x)) Recognition_started))
  /\ voiceEnabled (page off) = false /\ voiceEnabled (page y) = false
  /\ (status (page y), status_copy (page y)) = (js "idle", js "Voice Link Offline")
  /\ trace (page y) = trace (page x) ++ [Recognition_stop].
Proof.
  apply (restart_before_engine_end_throws voice_on); reflexivity.
Defined.

(** X16: the end of the engine does not lower the voice flag. So once
    the engine has ended, as it does after each utterance, the next click
    on the voice button takes the branch that switches voice input off, and
    only the click after that one starts the engine again. *)
Theorem two_clicks_to_listen_again (x : Session) :
  speech_recognition (host (page x)) = true -> voiceEnabled (page x) = true ->
  let ended := step x Engine_end in
  let y := step ended Click_voice in
  let z := step y Click_voice in
  voiceEnabled (page ended) = true /\ engine_started (page ended) = false
  /\ voiceEnabled (page y) = false /\ engine_started (page y) = false
  /\ (status (page y), status_copy (page y)) = (js "idle", js "Voice Link Offline")
  /\ engine_calls (trace (page y)) = engine_calls (trace (page x)) ++ [Recognition_stop]
  /\ voiceEnabled (page z) = true /\ engine_started (page z) = true
  /\ engine_calls (trace (page z))
     = engine_calls (trace (page x)) ++ [Recognition_stop; Recognition_start].
Proof.
  intros Hhost Hon. cbv zeta.
  destruct x as [s fl]. cbn [page] in *.
  assert (Hended : exists st copy active,
             page (step {| page := s; inflight := fl |} Engine_end)
             = set_status_copy copy
                 (set_status st
                    (set_voiceToggle
                       {| btn_active := active; btn_disabled := btn_disabled (voiceToggle s);
                          btn_title := btn_title (voiceToggle s) |}
                       (set_engine_started false s)))).
  { cbn [step handling page]. unfold run, onend, voiceToggle_active, updateStatus.
    js_step. destruct_state s. destruct busy; do 3 eexists; reflexivity. }
  destruct Hended as (st1 & copy1 & active & Hended).
  cbn [step handling page inflight] in *. rewrite Hended. unfold run.
  rewrite toggleVoiceInput_off; [| exact Hhost | exact Hon]. cbn [snd].
  rewrite toggleVoiceInput_on; [| exact Hhost | reflexivity | reflexivity]. cbn [snd].
  fields. unfold engine_calls. rewrite !List.filter_app. cbn [List.filter].
  rewrite <- !app_assoc. repeat split; assumption.
Qed.

Lemma two_clicks_to_listen_again_witness :
  let x := steps voice_on [Engine_start; Engine_result (js "status report")] in
  let ended := step x Engine_end in
  let y := step ended Click_voice in
  let z := step y Click_voice in
  voiceEnabled (page ended) = true /\ engine_started (page ended) = false
  /\ voiceEnabled (page y) = false /\ engine_started (page y) = false
  /\ (status (page y), status_copy (page y)) = (js "idle", js "Voice Link Offline")
  /\ engine_calls (trace (page y)) = engine_calls (trace (page x)) ++ [Recognition_stop]
  /\ voiceEnabled (page z) = true /\ engine_started (page z) = true
  /\ engine_calls (trace (page z))
     = engine_calls (trace (page x)) ++ [Recognition_stop; Recognition_start].
Proof.
  apply (two_clicks_to_listen_again
           (steps voice_on [Engine_start; Engine_result (js "status report")]));
    reflexivity.
Defined.

(** A command button and the recognition engine submit through the
    form: a click on the button is the typing of its command followed
    by a submit, and so is a result of the engine with its transcript
    trimmed, unless that is empty, when nothing happens at all. *)
Lemma commands_go_through_the_form (x : Session) (text : jsstring) :
  step x (Click_command text) = steps x [Type_text text; Submit]
  /\ step x (Engine_result text)
     = (if str_eqb (trim text) [] then x else steps x [Type_text (trim text); Submit]).
Proof.
  split; [reflexivity |].
  cbn [step]. unfold submitting, onresult.
  destruct (str_eqb (trim text) []); [destruct x |]; reflexivity.
Qed.

(** X17: while a request is out, a command button or a result of the
    engine still overwrites the input box, and does nothing else: what the
    user had typed there is replaced and nothing is submitted. *)
Theorem dropped_command_overwrites_input (x : Session) (text : jsstring) :
  isProcessing (page x) = true ->
  step x (Click_command text) = step x (Type_text text)
  /\ step x (Engine_result text)
     = (if str_eqb (trim text) [] then x else step x (Type_text (trim text)))
  /\ input_value (page (step x (Click_command text))) = text.
Proof.
  intros Hbusy.
  assert (Htyped : forall t, step (step x (Type_text t)) Submit = step x (Type_text t)).
  { intros t. rewrite step_Submit. apply call_dropped, sendCommand_busy.
    cbn [step handling page].
    pose proof (typed_settled t (page x)) as Hpart.
    apply settled_part_busy in Hpart. rewrite Hpart. exact Hbusy. }
  repeat split.
  - change (step x (Click_command text)) with (step (step x (Type_text text)) Submit).
    apply Htyped.
  - cbn [step]. unfold submitting at 1, onresult.
    destruct (str_eqb (trim text) []) eqn:Hblank; [destruct x; reflexivity |].
    change (step (step x (Type_text (trim text))) Submit = step x (Type_text (trim text))).
    apply Htyped.
  - change (step x (Click_command text)) with (step (step x (Type_text text)) Submit).
    rewrite Htyped. reflexivity.
Qed.

Lemma dropped_command_overwrites_input_witness :
  let x := step in_flight (Type_text (js "draft")) in
  let text := js "run diagnostics" in
  step x (Click_command text) = step x (Type_text text)
  /\ step x (Engine_result text)
     = (if str_eqb (trim text) [] then x else step x (Type_text (trim text)))
  /\ input_value (page (step x (Click_command text))) = text.
Proof.
  apply (dropped_command_overwrites_input (step in_flight (Type_text (js "draft")))
           (js "run diagnostics")).
  reflexivity.
Defined.

(** ** The request settles: further paths *)

Lemma pushIntel_shown item rest s :
  forallb printable (item :: rest) = true ->
  exists texts,
    Forall2 (fun item text => text_content (Some item) = Some text) (item :: rest) texts
    /\ pushIntel (item :: rest) s = (Normal tt, set_intel texts s).
Proof.
  intros Hitems.
  destruct (pushIntel_loop (item :: rest) (set_intel [] s) Hitems)
    as (texts & Hall & Hloop).
  exists texts. split; [exact Hall |].
  unfold pushIntel. erewrite bind_normal by reflexivity. exact Hloop.
Qed.

Lemma result_try_finally {A} (body : JS A) s :
  result (try_finally body finally_block) s = result body s.
Proof.
  unfold result, try_finally. destruct (body s) as [c s1].
  unfold finally_block. js_step. destruct (voiceEnabled _); reflexivity.
Qed.






Lemma unprintable_not_renderable content :
  printable content = false -> renderable (Message "assistant" content) = false.
Proof.
  intros H.
  change (renderable (Message "assistant" content))
    with (match class_token (Message "assistant" content),
                text_content (prop (Message "assistant" content) "content") with
          | Some token, Some _ => valid_token token
          | _, _ => false
          end).
  rewrite content_of_message. unfold printable in H.
  destruct content; cbn [text_content]; try discriminate H;
    destruct (ToString _); try discriminate H;
    destruct (class_token _); reflexivity.
Qed.

Lemma existsb_filter_out child (nodes : list node) :
  existsb (fun n => Nat.eqb (node_id n) child)
    (List.filter (fun n => negb (Nat.eqb (node_id n) child)) nodes) = false.
Proof.
  induction nodes as [| n rest IH]; [reflexivity |]. cbn [List.filter].
  destruct (Nat.eqb (node_id n) child) eqn:E; cbn [negb]; [exact IH |].
  cbn [existsb]. rewrite E, IH. reflexivity.
Qed.

Lemma removeChild_missing child s :
  existsb (fun n => Nat.eqb (node_id n) child) (conversation s) = false ->
  removeChild child s
  = (Throw (Err (js "NotFoundError") (host_message (host s) Not_a_child)), s).
Proof. intros H. unfold removeChild. js_step. rewrite H. reflexivity. Qed.

(** X20: when the content of the reply does not convert to text, the
    rendering of the reply throws after the reply is in the history and
    the placeholder is gone; the handler then throws in its turn, on
    removing the placeholder once more, before it shows anything. The call
    ends by that second throw with the in-flight flag down, the reply in
    the history but not in the store, and the transcript without
    placeholder, reply or apology. *)
Theorem unprintable_reply_breaks_the_handler
    (placeholder code : nat) (data : json) (s : State) :
  ok code = true -> data <> JNull -> printable (reply_content data) = false ->
  existsb (fun n => Nat.eqb (node_id n) placeholder) (conversation s) = true ->
  let resume := sendCommand_resume placeholder (Fetch_resolved code (Body_json data)) in
  result resume s
  = Throw (Err (js "NotFoundError") (host_message (host s) Not_a_child))
  /\ history (run resume s) = history s ++ [Message "assistant" (reply_content data)]
  /\ conversation (run resume s)
     = List.filter (fun n => negb (Nat.eqb (node_id n) placeholder)) (conversation s)
  /\ intel (run resume s) = intel s
  /\ localStorage (run resume s) = localStorage s
  /\ trace (run resume s) = trace s
  /\ isProcessing (run resume s) = false.
Proof.
  intros Hok Hdata Hcontent Hchild. cbv zeta.
  pose proof (unprintable_not_renderable _ Hcontent) as Hbad.
  assert (Hrun : try_catch (try_block placeholder (Fetch_resolved code (Body_json data)))
                   (catch_block placeholder) s
                 = (Throw (Err (js "NotFoundError") (host_message (host s) Not_a_child)),
                    set_conversation
                      (List.filter (fun n => negb (Nat.eqb (node_id n) placeholder))
                         (conversation s))
                      (set_history
                         (history s ++ [Message "assistant" (reply_content data)]) s))).
  { unfold try_block.
    erewrite try_catch_bind by (unfold await_data; rewrite Hok; reflexivity).
    erewrite try_catch_bind by (apply get_eq; exact Hdata).
    cbv beta zeta. fold (reply_content data).
    erewrite try_catch_bind by reflexivity.
    erewrite try_catch_bind by reflexivity.
    erewrite try_catch_bind by (apply removeChild_child; exact Hchild).
    match goal with
    | |- try_catch (renderMessage ?item ≫= _) _ ?s0 = _ =>
        destruct (renderMessage_throws item s0 Hbad) as [e He]
    end.
    rewrite (try_catch_bind_throw _ _ _ _ _ _ He).
    unfold catch_block. erewrite bind_throw; [reflexivity |].
    rewrite removeChild_missing by (fields; apply existsb_filter_out).
    reflexivity. }
  unfold sendCommand_resume. rewrite result_try_finally, !run_try_finally.
  unfold result. unfold run at 2 4 6 8 10 12. rewrite Hrun. cbn [fst snd].
  destruct (sendCommand_resume_finally placeholder (Fetch_resolved code (Body_json data)) s)
    as (Hidle & _).
  cbv zeta in Hidle. unfold sendCommand_resume in Hidle.
  rewrite run_try_finally in Hidle. unfold run at 2 in Hidle. rewrite Hrun in Hidle.
  cbn [snd] in Hidle.
  repeat split; try exact Hidle; peel history; peel conversation; peel intel;
    peel localStorage; peel trace; reflexivity.
Qed.

Lemma unprintable_reply_breaks_the_handler_witness :
  let data := JObj [(js "reply", JObj [(js "toString", JNull)])] in
  let s := page in_flight in
  let resume := sendCommand_resume 1 (Fetch_resolved 200 (Body_json data)) in
  result resume s
  = Throw (Err (js "NotFoundError") (host_message (host s) Not_a_child))
  /\ history (run resume s) = history s ++ [Message "assistant" (reply_content data)]
  /\ conversation (run resume s)
     = List.filter (fun n => negb (Nat.eqb (node_id n) 1)) (conversation s)
  /\ intel (run resume s) = intel s
  /\ localStorage (run resume s) = localStorage s
  /\ trace (run resume s) = trace s
  /\ isProcessing (run resume s) = false.
Proof.
  apply (unprintable_reply_breaks_the_handler 1 200
           (JObj [(js "reply", JObj [(js "toString", JNull)])]) (page in_flight));
    [reflexivity | discriminate | reflexivity | reflexivity].
Defined.

(** ** Restoring a session *)

(** Rendering the entries of a list one after the other, as far as they
    can be rendered. *)
Lemma forEach_render_prefix good : forall s tail,
  forallb renderable good = true ->
  exists s1 added,
    forEach (good ++ tail) (fun item => renderMessage item;; skip) s
    = forEach tail (fun item => renderMessage item;; skip) s1
    /\ conversation s1 = conversation s ++ added
    /\ Forall2 (fun item node => text_content (prop item "content") = Some (node_text node))
         good added
    /\ (history s1, intel s1, host s1, localStorage s1)
       = (history s, intel s, host s, localStorage s).
Proof.
  induction good as [| item rest IH]; intros s tail Hgood.
  - exists s, []. rewrite app_nil_r. repeat split. constructor.
  - cbn [forallb] in Hgood. apply andb_prop in Hgood as [Hitem Hrest].
    destruct (renderable_parts item Hitem) as (Hnull & token & text & Htoken & Hvalid & Htext).
    pose proof (renderMessage_renders item token text s Hnull Htoken Hvalid Htext) as Hrender.
    cbv zeta in Hrender.
    match type of Hrender with
    | _ = (_, ?s0) => destruct (IH s0 tail Hrest) as (s1 & added & Hrun & Hconv & Hall & Hkept)
    end.
    match type of Hconv with
    | _ = conversation _ ++ _ => revert Hconv Hkept; fields; intros Hconv Hkept
    end.
    match type of Hconv with
    | _ = (_ ++ [?n]) ++ _ => exists s1, (n :: added)
    end.
    split; [| split; [| split]].
    + cbn [app forEach]. erewrite bind_normal; [exact Hrun |].
      erewrite bind_normal by exact Hrender. reflexivity.
    + rewrite Hconv, <- app_assoc. reflexivity.
    + constructor; [exact Htext | exact Hall].
    + exact Hkept.
Qed.

Lemma mapM_labels_spec entries :
  Forall (fun entry => renderable entry = true) entries ->
  forall s,
    exists labels,
      mapM (fun entry => role ← get entry "role"; content ← get entry "content";
                         text ← DOMString content;
                         mret (JStr ((if is_str role "user" then js "You" else js "Jarvis")
                                     ++ js ": " ++ text))) entries s
      = (Normal (JStr <$> labels), s)
      /\ Forall2 (fun entry label =>
                    exists text,
                      to_string (prop entry "content") = Some text
                      /\ label = (if is_str (prop entry "role") "user"
                                  then js "You" else js "Jarvis") ++ js ": " ++ text)
           entries labels.
Proof.
  induction 1 as [| entry rest Hentry _ IH]; intros s; cbn [mapM];
    [exists []; split; [reflexivity | constructor] |].
  destruct (renderable_content entry Hentry) as [text Htext].
  destruct (IH s) as (labels & Hlabels & Hall).
  exists (((if is_str (prop entry "role") "user" then js "You" else js "Jarvis")
           ++ js ": " ++ text) :: labels).
  split; [| constructor; [exists text; split; [exact Htext | reflexivity] | exact Hall]].
  erewrite bind_normal; cycle 1.
  { erewrite bind_normal by (apply get_eq, renderable_not_null, Hentry).
    erewrite bind_normal by (apply get_eq, renderable_not_null, Hentry).
    erewrite bind_normal by (unfold DOMString; rewrite Htext; reflexivity).
    reflexivity. }
  erewrite bind_normal by exact Hlabels. reflexivity.
Qed.

Lemma texts_of_strings (strs : list jsstring) : forall texts,
  Forall2 (fun item text => text_content (Some item) = Some text) (JStr <$> strs) texts ->
  texts = strs.
Proof.
  induction strs as [| str rest IH]; intros texts Hall.
  - change (JStr <$> []) with (@nil json) in Hall. inversion Hall. reflexivity.
  - change (JStr <$> (str :: rest)) with (JStr str :: (JStr <$> rest)) in Hall.
    inversion Hall as [| ? text ? texts' Hhead Htail]; subst.
    rewrite (IH _ Htail). cbn [text_content ToString] in Hhead. congruence.
Qed.

Lemma pushIntel_strings (line : jsstring) (lines : list jsstring) s :
  pushIntel (JStr <$> (line :: lines)) s = (Normal tt, set_intel (line :: lines) s).
Proof.
  destruct (pushIntel_shown (JStr line) (fmap (M := list) JStr lines) s
              (printable_strings (line :: lines))) as (texts & Hall & Hpush).
  change (JStr <$> (line :: lines)) with (JStr line :: (JStr <$> lines)).
  rewrite Hpush.
  change (JStr line :: (JStr <$> lines)) with (JStr <$> (line :: lines)) in Hall.
  rewrite (texts_of_strings _ _ Hall). reflexivity.
Qed.

Lemma pushIntel_restored (n : nat) (labels : list jsstring) s :
  pushIntel ([JStr (js "Historical context restored.");
              JStr (js "Loaded " ++ decimal n ++ js " transmissions.");
              JStr (js "Jarvis is ready to continue the mission.")] ++ (JStr <$> labels)) s
  = (Normal tt,
     set_intel ([js "Historical context restored.";
                 js "Loaded " ++ decimal n ++ js " transmissions.";
                 js "Jarvis is ready to continue the mission."] ++ labels) s).
Proof.
  exact (pushIntel_strings (js "Historical context restored.")
           ((js "Loaded " ++ decimal n ++ js " transmissions.")
            :: js "Jarvis is ready to continue the mission." :: labels) s).
Qed.

Lemma restoreHistory_total s : result restoreHistory s = Normal tt.
Proof.
  unfold result, restoreHistory, try_catch.
  match goal with |- context [?body s] => destruct (body s) as [[[] | e] s1] end;
    reflexivity.
Qed.

(** X21: a session restored from an array of entries that can all be
    rendered shows every one of them, appended to the transcript in the
    array's order with the text of its content, and replaces the notices by
    three lines, the second with the number of entries, followed by one
    line for each of the last three entries: the speaker, "You" for the
    role [user] and "Jarvis" for any other, and the content. *)
Theorem restoreHistory_shows_entries (items : list json) (s : State) :
  storage_readable (host s) = true ->
  localStorage s !! storage_key = Some (Text_json (JArr items)) ->
  items <> [] -> forallb renderable items = true ->
  let s' := run restoreHistory s in
  (exists added,
     conversation s' = conversation s ++ added
     /\ Forall2 (fun item node => text_content (prop item "content") = Some (node_text node))
          items added)
  /\ exists labels,
       intel s'
       = [js "Historical context restored.";
          js "Loaded " ++ decimal (length items) ++ js " transmissions.";
          js "Jarvis is ready to continue the mission."] ++ labels
       /\ Forall2 (fun entry label =>
                     exists text,
                       to_string (prop entry "content") = Some text
                       /\ label = (if is_str (prop entry "role") "user"
                                   then js "You" else js "Jarvis") ++ js ": " ++ text)
            (slice_last 3 items) labels.
Proof.
  intros Hread Hstore Hitems Hall. cbv zeta.
  destruct (forEach_render_prefix items (set_history items s) [] Hall)
    as (s1 & added & Hrun & Hconv & Hshown & Hkept).
  rewrite app_nil_r in Hrun. cbn [forEach] in Hrun.
  revert Hconv Hkept. fields. intros Hconv Hkept. injection Hkept as Hhist _ _ _.
  destruct (mapM_labels_spec (slice_last 3 items)
              (Forall_slice_last _ 3 _ (forallb_true_Forall _ _ Hall)) s1)
    as (labels & Hlabels & Hspec).
  assert (Hrestore :
            restoreHistory s
            = (Normal tt,
               set_intel
                 ([js "Historical context restored.";
                   js "Loaded " ++ decimal (length items) ++ js " transmissions.";
                   js "Jarvis is ready to continue the mission."] ++ labels) s1)).
  { unfold restoreHistory, try_catch.
    rewrite (bind_normal _ _ _ _ _ (localStorage_getItem_eq storage_key s Hread)).
    rewrite Hstore.
    erewrite bind_normal by reflexivity.
    erewrite bind_normal by reflexivity.
    erewrite bind_normal by reflexivity.
    fields. rewrite (bind_normal _ _ _ _ _ Hrun).
    erewrite bind_normal by reflexivity.
    rewrite Hhist. destruct items as [| item rest]; [contradiction |].
    rewrite (bind_normal _ _ _ _ _ Hlabels). cbv beta.
    rewrite pushIntel_restored. reflexivity. }
  unfold run. rewrite Hrestore. cbn [snd]. fields.
  split; [exists added; split; assumption | exists labels; split; [reflexivity | exact Hspec]].
Qed.

Lemma restoreHistory_shows_entries_witness :
  let items := [Message "user" (JStr (js "status report"));
                Message "assistant" (JStr (js "All systems nominal."))] in
  let s := set_localStorage {[ storage_key := JSON_stringify items ]} (page at_rest) in
  let s' := run restoreHistory s in
  (exists added,
     conversation s' = conversation s ++ added
     /\ Forall2 (fun item node => text_content (prop item "content") = Some (node_text node))
          items added)
  /\ exists labels,
       intel s'
       = [js "Historical context restored.";
          js "Loaded " ++ decimal (length items) ++ js " transmissions.";
          js "Jarvis is ready to continue the mission."] ++ labels
       /\ Forall2 (fun entry label =>
                     exists text,
                       to_string (prop entry "content") = Some text
                       /\ label = (if is_str (prop entry "role") "user"
                                   then js "You" else js "Jarvis") ++ js ": " ++ text)
            (slice_last 3 items) labels.
Proof.
  apply (restoreHistory_shows_entries
           [Message "user" (JStr (js "status report"));
            Message "assistant" (JStr (js "All systems nominal."))]
           (set_localStorage
              {[ storage_key :=
                   JSON_stringify
                     [Message "user" (JStr (js "status report"));
                      Message "assistant" (JStr (js "All systems nominal."))] ]}
              (page at_rest)));
    [reflexivity | reflexivity | discriminate | reflexivity].
Defined.

(** X22: when an entry of the stored array cannot be rendered, the
    history is reset to empty, but the entries before it stay in the
    transcript, where they were rendered before the failure; the notices
    are left as they were. *)
Theorem restoreHistory_keeps_rendered_prefix
    (good : list json) (bad : json) (rest : list json) (s : State) :
  storage_readable (host s) = true ->
  localStorage s !! storage_key = Some (Text_json (JArr (good ++ bad :: rest))) ->
  forallb renderable good = true -> renderable bad = false ->
  let s' := run restoreHistory s in
  history s' = []
  /\ (exists added,
        conversation s' = conversation s ++ added
        /\ Forall2 (fun item node => text_content (prop item "content") = Some (node_text node))
             good added)
  /\ intel s' = intel s.
Proof.
  intros Hread Hstore Hgood Hbad. cbv zeta.
  destruct (forEach_render_prefix good (set_history (good ++ bad :: rest) s)
              (bad :: rest) Hgood)
    as (s1 & added & Hrun & Hconv & Hshown & Hkept).
  revert Hconv Hkept. fields. intros Hconv Hkept. injection Hkept as _ Hintel _ _.
  destruct (renderMessage_throws bad s1 Hbad) as [e He].
  assert (Hrestore : restoreHistory s = (Normal tt, set_history [] s1)).
  { unfold restoreHistory, try_catch.
    rewrite (bind_normal _ _ _ _ _ (localStorage_getItem_eq storage_key s Hread)).
    rewrite Hstore.
    erewrite bind_normal by reflexivity.
    erewrite bind_normal by reflexivity.
    erewrite bind_normal by reflexivity.
    fields. erewrite bind_throw; [reflexivity |].
    rewrite Hrun. cbn [forEach]. erewrite bind_throw; [reflexivity |].
    erewrite bind_throw by exact He. reflexivity. }
  unfold run. rewrite Hrestore. cbn [snd]. fields.
  split; [reflexivity | split; [exists added; split; assumption | exact Hintel]].
Qed.

Lemma restoreHistory_keeps_rendered_prefix_witness :
  let good := [Message "user" (JStr (js "status report"))] in
  let s := set_localStorage
             {[ storage_key := JSON_stringify (good ++ JNull :: [unshaped_entry]) ]}
             (page at_rest) in
  let s' := run restoreHistory s in
  history s' = []
  /\ (exists added,
        conversation s' = conversation s ++ added
        /\ Forall2 (fun item node => text_content (prop item "content") = Some (node_text node))
             good added)
  /\ intel s' = intel s.
Proof.
  apply (restoreHistory_keeps_rendered_prefix
           [Message "user" (JStr (js "status report"))] JNull [unshaped_entry]
           (set_localStorage
              {[ storage_key :=
                   JSON_stringify
                     ([Message "user" (JStr (js "status report"))]
                      ++ JNull :: [unshaped_entry]) ]}
              (page at_rest)));
    reflexivity.
Defined.

(** X23: what [persistHistory] writes, the next load restores: on a
    host whose store can be written and read, a page loaded with the store
    that [persistHistory] left starts from the last 20 entries of the
    history as their text reads back, with [null] for the numbers that are
    not finite, provided these can be rendered; so it starts from the very
    entries when they hold no such number. *)
Theorem history_survives_reload (s : State) (st copy : jsstring) :
  storage_writable (host s) = true -> storage_readable (host s) = true ->
  forallb renderable (jsonify <$> slice_last 20 (history s)) = true ->
  let stored := localStorage (run persistHistory s) in
  history (page (loaded (host s) stored st copy)) = jsonify <$> slice_last 20 (history s)
  /\ (forallb finite (slice_last 20 (history s)) = true ->
      history (page (loaded (host s) stored st copy)) = slice_last 20 (history s)).
Proof.
  intros Hwrite Hread Hall. cbv zeta.
  assert (Hreload : history (page (loaded (host s) (localStorage (run persistHistory s))
                                     st copy))
                    = jsonify <$> slice_last 20 (history s)).
  { unfold loaded. cbn [page].
    rewrite on_load_history.
    unfold run at 2. rewrite persistHistory_eq, Hwrite. cbn [snd]. fields.
    unfold JSON_stringify.
    set (items := jsonify <$> slice_last 20 (history s)) in *.
    set (s0 := initial_page (host s) (<[storage_key:=Text_json (JArr items)]> (localStorage s))
                 st copy).
    assert (Hstore : localStorage s0 !! storage_key = Some (Text_json (JArr items)))
      by apply lookup_insert_eq.
    destruct (forEach_render_prefix items (set_history items s0) [] Hall)
      as (s1 & added & Hrun & _ & _ & Hkept).
    rewrite app_nil_r in Hrun. cbn [forEach] in Hrun.
    injection Hkept as Hhist _ _ _. revert Hhist. fields. intros Hhist.
    destruct (mapM_labels_spec (slice_last 3 items)
                (Forall_slice_last _ 3 _ (forallb_true_Forall _ _ Hall)) s1)
      as (labels & Hlabels & _).
    unfold run, restoreHistory, try_catch.
    rewrite (bind_normal _ _ _ _ _ (localStorage_getItem_eq storage_key s0 Hread)).
    rewrite Hstore.
    erewrite bind_normal by reflexivity.
    erewrite bind_normal by reflexivity.
    erewrite bind_normal by reflexivity.
    fields. rewrite (bind_normal _ _ _ _ _ Hrun).
    erewrite bind_normal by reflexivity.
    rewrite Hhist. destruct items as [| item rest] eqn:Hitems; [exact Hhist |].
    rewrite (bind_normal _ _ _ _ _ Hlabels). cbv beta.
    rewrite pushIntel_restored. exact Hhist. }
  split; [exact Hreload |].
  intros Hfinite. rewrite Hreload. apply jsonify_all_finite, Hfinite.
Qed.

Lemma history_survives_reload_witness :
  let s := page (answer_with (JObj [(js "reply", JNum (js "Infinity"))])) in
  let stored := localStorage (run persistHistory s) in
  history s
  = [Message "user" (JStr (js "status report")); Message "assistant" (JNum (js "Infinity"))]
  /\ history (page (loaded (host s) stored (js "idle") (js "Systems Idle")))
     = [Message "user" (JStr (js "status report")); Message "assistant" JNull].
Proof.
  split; [reflexivity |].
  apply (history_survives_reload
           (page (answer_with (JObj [(js "reply", JNum (js "Infinity"))])))
           (js "idle") (js "Systems Idle"));
    reflexivity.
Defined.

(** X24: the [load] listener always completes; it leaves the transcript
    as [restoreHistory] made it, disables the voice button, with a title,
    exactly when the host has no speech recognition, and when the host has
    no speech synthesis its one notice replaces those of the restoration. *)
Theorem on_load_completes (s : State) :
  result on_load s = Normal tt
  /\ conversation (run on_load s) = conversation (run restoreHistory s)
  /\ voiceToggle (run on_load s)
     = (if speech_recognition (host s) then voiceToggle s
        else {| btn_active := btn_active (voiceToggle s); btn_disabled := true;
                btn_title := Some (js "Voice recognition requires Chrome or Edge desktop.") |})
  /\ intel (run on_load s)
     = match synth (host s) with
       | None => [js "Speech synthesis unavailable on this device."]
       | Some _ => intel (run restoreHistory s)
       end.
Proof.
  assert (Hkept : preserves (fun s => (host s, voiceToggle s)) restoreHistory)
    by (unfold restoreHistory; framing).
  specialize (Hkept s). cbv beta in Hkept. injection Hkept as Hhost Hbutton.
  pose proof (bind_total restoreHistory _ s tt (restoreHistory_total s)
              : on_load s = _) as Hload.
  set (s1 := run restoreHistory s) in *.
  rewrite <- Hhost, <- Hbutton. unfold result, run. rewrite Hload.
  clearbody s1. clear. destruct_state s1. destruct voices, rec; repeat split.
Qed.

(** ** The accepted call *)

(** X25: a call that passes the guards returns suspended, holding the
    handle of the placeholder, with the page already changed: the in-flight
    flag up, the status at "Processing", the user's line and the
    placeholder with its [thinking] class at the end of the transcript, the
    input box empty, the notices untouched, and, when the store takes it,
    the text of an array in the store that ends with the user's turn, after
    the 19 entries before it as their text reads back. *)
Theorem accepted_call_shows_placeholder (m : jsstring) (s : State) :
  isProcessing s = false -> trim m <> [] ->
  let s' := run (sendCommand m) s in
  let turn := Message "user" (JStr (trim m)) in
  let earlier := slice_last 19 (history s) in
  result (sendCommand m) s = Normal (Some (S (next_node s)))
  /\ isProcessing s' = true
  /\ (status s', status_copy s') = (js "thinking", js "Processing")
  /\ conversation s'
     = conversation s ++ [user_node (next_node s) (trim m);
                          placeholder_node (S (next_node s))]
  /\ input_value s' = []
  /\ intel s' = intel s
  /\ localStorage s' !! storage_key
     = (if storage_writable (host s)
        then Some (Text_json (JArr ((jsonify <$> earlier) ++ [turn])))
        else localStorage s !! storage_key)
  /\ (forallb finite earlier = true -> jsonify <$> earlier = earlier).
Proof.
  intros Hidle Htext. cbv zeta.
  destruct (sendCommand_accepts m s Hidle Htext)
    as (Hres & _ & Hbusy & Hstatus & Hconv & _ & Hintel & Hinput & _ & _ & Hstore & _).
  repeat split; try assumption; [| apply jsonify_all_finite].
  rewrite Hstore. destruct (storage_writable (host s)); [| reflexivity].
  rewrite lookup_insert_eq. unfold JSON_stringify. do 3 f_equal.
  unfold slice_last.
  replace (length (history s ++ [Message "user" (JStr (trim m))]) - 20)%nat
    with (length (history s) - 19)%nat by (rewrite length_app; cbn [length]; lia).
  rewrite drop_app_le by lia. rewrite fmap_app. reflexivity.
Qed.

Lemma accepted_call_shows_placeholder_witness :
  let m := js " run diagnostics " in
  let s := page (answer_with nominal) in
  let s' := run (sendCommand m) s in
  let earlier := [Message "user" (JStr (js "status report"));
                  Message "assistant" (JStr (js "All systems nominal."))] in
  result (sendCommand m) s = Normal (Some 4%nat)
  /\ isProcessing s' = true
  /\ (status s', status_copy s') = (js "thinking", js "Processing")
  /\ conversation s'
     = conversation s ++ [user_node 3 (js "run diagnostics"); placeholder_node 4]
  /\ input_value s' = []
  /\ intel s' = intel s
  /\ localStorage s' !! storage_key
     = Some (Text_json (JArr (earlier ++ [Message "user" (JStr (js "run diagnostics"))])))
  /\ (forallb finite earlier = true -> jsonify <$> earlier = earlier).
Proof.
  apply (accepted_call_shows_placeholder (js " run diagnostics ")
           (page (answer_with nominal)));
    [reflexivity | vm_compute; discriminate].
Defined.

(** ** The status line and the unused flag *)

Lemma call_status_line m x :
  status_line (page (call m x)) = status_line (page x)
  \/ status_line (page (call m x)) = (js "thinking", js "Processing").
Proof.
  destruct (call_dropped_or_accepted m x) as [[-> _] | (Hidle & Htext & ->)];
    [left; reflexivity | right].
  destruct (sendCommand_accepts m (page x) Hidle Htext) as (_ & _ & _ & Hstatus & _).
  exact Hstatus.
Qed.

Lemma step_status_line x ev :
  status_line (page (step x ev)) = status_line (page x)
  \/ status_line (page (step x ev)) ∈ status_lines.
Proof.
  assert (Hcall : forall m x',
             status_line (page x') = status_line (page x) ->
             status_line (page (call m x')) = status_line (page x)
             \/ status_line (page (call m x')) ∈ status_lines).
  { intros m x' Hsame. destruct (call_status_line m x') as [-> | ->];
      [left; exact Hsame | right]. unfold status_lines. set_solver. }
  destruct ev.
  - left. reflexivity.
  - rewrite step_Submit. apply Hcall. reflexivity.
  - rewrite step_Click_command. apply Hcall. reflexivity.
  - cbn [step handling page]. unfold run.
    destruct (speech_recognition (host (page x))) eqn:Hhost.
    + destruct (voiceEnabled (page x)) eqn:Hflag.
      * rewrite (toggleVoiceInput_off _ Hhost Hflag). right.
        unfold status_line, status_lines. cbn [snd]. fields. set_solver.
      * destruct (engine_started (page x)) eqn:Hengine.
        -- rewrite (toggleVoiceInput_running _ Hhost Hflag Hengine). left. reflexivity.
        -- rewrite (toggleVoiceInput_on _ Hhost Hflag Hengine). left. reflexivity.
    + rewrite (toggleVoiceInput_unsupported _ Hhost). left. reflexivity.
  - right. cbn [step handling page]. unfold status_lines.
    replace (status_line (run onstart (page x))) with (js "thinking", js "Listening")
      by reflexivity.
    set_solver.
  - destruct (decide (trim heard = [])) as [Hblank | Htext].
    + left. cbn [step]. unfold submitting, onresult. rewrite Hblank. reflexivity.
    + rewrite (step_Engine_result _ _ Htext). apply Hcall. reflexivity.
  - cbn [step handling page]. destruct x as [s fl]. cbn [page]. destruct_state s.
    destruct busy; [left; reflexivity | right].
    unfold status_lines.
    match goal with
    | |- ?l ∈ _ => replace l with (js "idle", js "Systems Idle") by reflexivity
    end.
    set_solver.
  - cbn [step handling page]. destruct x as [s fl]. cbn [page]. destruct_state s.
    destruct busy; [left; reflexivity | right].
    unfold status_lines.
    match goal with
    | |- ?l ∈ _ => replace l with (js "idle", js "Systems Idle") by reflexivity
    end.
    set_solver.
  - cbn [step]. destruct (inflight x) as [placeholder |]; [right | left; reflexivity].
    cbn [page]. destruct (sendCommand_resume_finally placeholder o (page x)) as (_ & _ & Hline).
    cbv zeta in Hline. unfold status_line. rewrite Hline. unfold status_lines.
    destruct (voiceEnabled (page x)); set_solver.
Qed.

(** X26: between events the status line has one of four forms: idle
    with "Systems Idle" or "Voice Link Offline", thinking with "Listening"
    or "Processing". If the document starts with one of them, so it stays;
    the intent that an answer writes into the copy is gone by the time the
    call has ended. *)
Theorem status_line_has_four_forms (x : Session) (evs : list event) :
  status_line (page x) ∈ status_lines ->
  status_line (page (steps x evs)) ∈ status_lines.
Proof.
  revert x. induction evs as [| ev evs IH]; intros x Hx; [exact Hx |].
  change (steps x (ev :: evs)) with (steps (step x ev) evs). apply IH.
  destruct (step_status_line x ev) as [-> | Hstep]; assumption.
Qed.

Lemma status_line_has_four_forms_witness :
  status_line (page (steps at_rest
                       [Click_voice; Engine_start; Engine_result (js "status report");
                        Engine_end; Settle (Fetch_resolved 200 (Body_json nominal))]))
    ∈ status_lines.
Proof.
  apply (status_line_has_four_forms at_rest
           [Click_voice; Engine_start; Engine_result (js "status report");
            Engine_end; Settle (Fetch_resolved 200 (Body_json nominal))]).
  vm_compute. apply list_elem_of_here.
Defined.

Lemma step_speechPending x ev : speechPending (page (step x ev)) = speechPending (page x).
Proof.
  destruct ev; cbn [step]; rewrite ?page_submitting; cbn [handling page];
    try (destruct (inflight x); cbn [page]; [| reflexivity]);
    match goal with
    | |- speechPending (run ?m ?s) = _ =>
        let P := fresh "P" in
        assert (P : preserves speechPending m)
          by (unfold toggleVoiceInput, recognition_start, recognition_stop,
                voiceToggle_disable; linking);
        exact (P s)
    end.
Qed.

(** X27: the flag [speechPending] of the script's state is never
    written: after the load and whatever the events it is [false], as the
    script set it. *)
Theorem speechPending_is_never_set
    (h : Host) (store : gmap jsstring stored_text) (st copy : jsstring)
    (evs : list event) :
  speechPending (page (steps (loaded h store st copy) evs)) = false.
Proof.
  assert (Hload : speechPending (page (loaded h store st copy)) = false).
  { assert (P : preserves speechPending on_load)
      by (unfold on_load, voiceToggle_disable; linking).
    exact (P (initial_page h store st copy)). }
  revert Hload. generalize (loaded h store st copy).
  induction evs as [| ev evs IH]; intros x Hx; [exact Hx |].
  change (steps x (ev :: evs)) with (steps (step x ev) evs). apply IH.
  rewrite step_speechPending. exact Hx.
Qed.
